(** * Dictionary-based text classification ([streamlit_app.py])

    A shallow embedding of the two helper functions of the application,
    [compile_patterns] and [classify_text], together with the fragment of
    Python they run on: dynamically typed values, dictionaries that keep
    insertion order, exceptions, and the part of the [re] module that the
    compiled patterns exercise (literals, [\b], the [re.I] flag,
    [Pattern.search]).

    The file has three parts: the program, the vocabulary in which its
    properties are stated, and the proofs. *)

From Stdlib Require Import List Bool NArith ZArith String Ascii Lia.
From Stdlib Require Import Floats.
Import ListNotations.

Set Implicit Arguments.
Set Warnings "-register-all".

Local Open Scope N_scope.

(** * The program *)

(** ** Python values *)

(** A [str] is a sequence of Unicode code points. *)
Definition codepoint := N.
Definition str := list codepoint.

(** [py "abc"] is the [str] written with the ASCII literal ["abc"]. *)
Definition py (s : string) : str :=
  List.map N_of_ascii (list_ascii_of_string s).

(** The scalars a cell of a loosely typed table can hold. *)
Inductive scalar :=
| None_
| Bool_ (b : bool)
| Int_ (n : Z)
| Float_ (x : float)
| Str_ (s : str).

(** What [json.loads] builds: scalars, lists and dicts with [str] keys. *)
Inductive pyobj :=
| Scalar (v : scalar)
| List_ (xs : list pyobj)
| Dict_ (kvs : list (str * pyobj)).

Definition scalar_type_name (v : scalar) : string :=
  match v with
  | None_ => "NoneType"
  | Bool_ _ => "bool"
  | Int_ _ => "int"
  | Float_ _ => "float"
  | Str_ _ => "str"
  end.

Definition type_name (o : pyobj) : string :=
  match o with
  | Scalar v => scalar_type_name v
  | List_ _ => "list"
  | Dict_ _ => "dict"
  end.

(** ** Exceptions

    The only exception the two helpers can meet is the interpreter's
    [TypeError]; its message varies with the type of the operand that was
    rejected and with nothing else, so that type name is what we keep. *)
Inductive exn :=
| TypeError (operand_type : string).

Definition exn_class (e : exn) : string :=
  match e with
  | TypeError _ => "TypeError"
  end.

Inductive result (A : Type) :=
| Ok (a : A)
| Raise (e : exn).

Arguments Ok {A} a.
Arguments Raise {A} e.

Definition bind {A B} (c : result A) (k : A -> result B) : result B :=
  match c with
  | Ok a => k a
  | Raise e => Raise e
  end.

Notation "x <- c ;; k" := (bind c (fun x => k))
  (at level 61, c at next level, right associativity).

(** ** [str] operations *)

Fixpoint str_eqb (s t : str) : bool :=
  match s, t with
  | [], [] => true
  | c :: s', x :: t' => (c =? x) && str_eqb s' t'
  | _, _ => false
  end.

Fixpoint startswith (hay needle : str) {struct needle} : bool :=
  match needle, hay with
  | [], _ => true
  | c :: needle', x :: hay' => (c =? x) && startswith hay' needle'
  | _ :: _, [] => false
  end.

(** [needle in hay] for two [str]: substring test. *)
Fixpoint str_contains (needle hay : str) : bool :=
  startswith hay needle ||
  match hay with
  | [] => false
  | _ :: hay' => str_contains needle hay'
  end.

(** [sep.join(parts)]. *)
Fixpoint str_join (sep : str) (parts : list str) : str :=
  match parts with
  | [] => []
  | [p] => p
  | p :: rest => p ++ sep ++ str_join sep rest
  end.

(** ** Operators on dynamically typed operands *)

Definition py_eq_str (s : str) (o : pyobj) : bool :=
  match o with
  | Scalar (Str_ t) => str_eqb s t
  | _ => false
  end.

(** [needle in container] with a [str] on the left: substring test on a
    [str], membership by [==] in a list, key lookup in a dict, [TypeError]
    on anything that is no container. *)
Definition py_contains (needle : str) (container : pyobj) : result bool :=
  match container with
  | Scalar (Str_ s) => Ok (str_contains needle s)
  | Scalar v => Raise (TypeError (scalar_type_name v))
  | List_ xs => Ok (existsb (py_eq_str needle) xs)
  | Dict_ kvs => Ok (existsb (fun kv => str_eqb needle (fst kv)) kvs)
  end.

(** The elements a [for] loop over [o] visits: the one-character strings
    of a [str], the elements of a list, the keys of a dict. *)
Definition py_iter (o : pyobj) : result (list pyobj) :=
  match o with
  | Scalar (Str_ s) => Ok (List.map (fun c => Scalar (Str_ [c])) s)
  | Scalar v => Raise (TypeError (scalar_type_name v))
  | List_ xs => Ok xs
  | Dict_ kvs => Ok (List.map (fun kv => Scalar (Str_ (fst kv))) kvs)
  end.

(** [pd.isna] on a scalar: [None] and the float NaN are missing. *)
Definition pd_isna (v : scalar) : bool :=
  match v with
  | None_ => true
  | Float_ x => PrimFloat.is_nan x
  | _ => false
  end.

(** ** Dictionaries

    A [dict] keeps its items in insertion order; assigning to a key that
    is present replaces the value where it stands. *)
Section Dict.
Variable V : Type.

Definition dict := list (str * V).

Definition keys (d : dict) : list str := List.map fst d.

Fixpoint dict_setitem (k : str) (v : V) (d : dict) : dict :=
  match d with
  | [] => [(k, v)]
  | (k', v') :: d' =>
      if str_eqb k k' then (k, v) :: d' else (k', v') :: dict_setitem k v d'
  end.
End Dict.

(** ** The [re] module *)

(** The character tables behind [\w] and [re.I] are those of the Unicode
    database of the interpreter; they are a parameter of the matcher. *)
Record UnicodeDB := {
  (** [chr(c).isalnum()] *)
  isalnum : codepoint -> bool;
  (** a literal [c] of a pattern compiled with [re.I] accepts [x] *)
  ignorecase_eq : codepoint -> codepoint -> bool
}.

(** The source of a pattern is kept as the nodes it parses to: [\b] is
    [AT_BOUNDARY], a character that stands for itself is a [LITERAL]. *)
Inductive re_node :=
| LITERAL (c : codepoint)
| AT_BOUNDARY.

Record Pattern := {
  nodes : list re_node;
  flag_I : bool
}.

Definition re_I : bool := true.

Definition re_compile (pattern : list re_node) (flags : bool) : Pattern :=
  {| nodes := pattern; flag_I := flags |}.

(** [re.escape(term)] puts a backslash before every character of [term]
    that the syntax of patterns gives a meaning to, so that its result
    denotes [term] itself, character by character; it rejects what is
    neither [str] nor bytes. *)
Definition re_escape (term : pyobj) : result (list re_node) :=
  match term with
  | Scalar (Str_ s) => Ok (List.map LITERAL s)
  | _ => Raise (TypeError (type_name term))
  end.

Section Matching.
Variable db : UnicodeDB.

(** [\w] on a [str] pattern. *)
Definition is_word (c : codepoint) : bool :=
  isalnum db c || (c =? 95).

Definition is_word_at (o : option codepoint) : bool :=
  match o with
  | Some c => is_word c
  | None => false
  end.

(** [\b]: exactly one of the characters around the position is a word
    character; outside the text counts as none. *)
Definition at_boundary (before after : option codepoint) : bool :=
  xorb (is_word_at before) (is_word_at after).

Definition literal_eq (flags : bool) (c x : codepoint) : bool :=
  if flags then ignorecase_eq db c x else c =? x.

(** Match the nodes at the current position; [before] is the character
    just left of it, [rest] the text from it on. *)
Fixpoint match_here (flags : bool) (ns : list re_node)
         (before : option codepoint) (rest : str) : bool :=
  match ns with
  | [] => true
  | LITERAL c :: ns' =>
      match rest with
      | [] => false
      | x :: rest' => literal_eq flags c x && match_here flags ns' (Some x) rest'
      end
  | AT_BOUNDARY :: ns' =>
      at_boundary before (hd_error rest) && match_here flags ns' before rest
  end.

(** Try every start position from the current one to the end. *)
Fixpoint search_from (flags : bool) (ns : list re_node)
         (before : option codepoint) (rest : str) : bool :=
  match_here flags ns before rest ||
  match rest with
  | [] => false
  | x :: rest' => search_from flags ns (Some x) rest'
  end.

(** [p.search(s)] on a [str], as the truth value of its result. *)
Definition search (p : Pattern) (s : str) : bool :=
  search_from (flag_I p) (nodes p) None s.

(** [p.search(text)]: a [TypeError] unless [text] is a [str]. *)
Definition Pattern_search (p : Pattern) (text : scalar) : result bool :=
  match text with
  | Str_ s => Ok (search p s)
  | _ => Raise (TypeError (scalar_type_name text))
  end.
End Matching.

(** ** [compile_patterns] *)

Definition compile_term (term : pyobj) : result Pattern :=
  has_space <- py_contains (py " ") term ;;
  if (has_space : bool) then
    escaped <- re_escape term ;;
    Ok (re_compile escaped re_I)
  else
    escaped <- re_escape term ;;
    Ok (re_compile (AT_BOUNDARY :: escaped ++ [AT_BOUNDARY]) re_I).

Fixpoint compile_vocab (terms : list pyobj) (patterns : list Pattern)
  : result (list Pattern) :=
  match terms with
  | [] => Ok patterns
  | term :: rest =>
      p <- compile_term term ;;
      compile_vocab rest (patterns ++ [p])
  end.

Fixpoint compile_items (items : list (str * pyobj))
         (compiled : dict (list Pattern)) : result (dict (list Pattern)) :=
  match items with
  | [] => Ok compiled
  | (label, vocab) :: rest =>
      terms <- py_iter vocab ;;
      patterns <- compile_vocab terms [] ;;
      compile_items rest (dict_setitem label patterns compiled)
  end.

Definition compile_patterns (dictionaries : dict pyobj)
  : result (dict (list Pattern)) :=
  compile_items dictionaries [].

(** ** [classify_text] *)

Section Classify.
Variable db : UnicodeDB.

(** [any(p.search(text) for p in patterns)]: stops at the first hit. *)
Fixpoint any_search (text : scalar) (patterns : list Pattern) : result bool :=
  match patterns with
  | [] => Ok false
  | p :: rest =>
      hit <- Pattern_search db p text ;;
      if (hit : bool) then Ok true else any_search text rest
  end.

(** [[label for label, patterns in compiled.items() if any(...)]] *)
Fixpoint hits (text : scalar) (items : dict (list Pattern))
  : result (list str) :=
  match items with
  | [] => Ok []
  | (label, patterns) :: rest =>
      hit <- any_search text patterns ;;
      more <- hits text rest ;;
      Ok (if (hit : bool) then label :: more else more)
  end.

Definition classify_text (text : scalar) (compiled : dict (list Pattern))
  : result str :=
  if pd_isna text then Ok (py "")
  else
    found <- hits text compiled ;;
    Ok (str_join (py ",") found).

(** The call site: [df["Statement"].astype(str).apply(lambda t:
    classify_text(t, compiled))]; [astype_str] is what [astype(str)] makes
    of a cell. *)
Variable astype_str : scalar -> scalar.

Fixpoint apply_classify (column : list scalar)
         (compiled : dict (list Pattern)) : result (list str) :=
  match column with
  | [] => Ok []
  | cell :: rest =>
      labels <- classify_text (astype_str cell) compiled ;;
      more <- apply_classify rest compiled ;;
      Ok (labels :: more)
  end.
End Classify.

(** * The vocabulary of the statements *)

(** ** The ASCII part of the character tables *)

Definition ascii_isalnum (c : codepoint) : bool :=
  ((48 <=? c) && (c <=? 57)) || ((65 <=? c) && (c <=? 90)) ||
  ((97 <=? c) && (c <=? 122)).

Definition ascii_lower (c : codepoint) : codepoint :=
  if (65 <=? c) && (c <=? 90) then c + 32 else c.

Definition ascii_db : UnicodeDB :=
  {| isalnum := ascii_isalnum;
     ignorecase_eq := fun c x => ascii_lower c =? ascii_lower x |}.

(** A database is compatible with ASCII when it agrees with [ascii_db] on
    the code points below 128. *)
Definition ascii_compatible (db : UnicodeDB) : Prop :=
  forall c, c < 128 ->
    isalnum db c = ascii_isalnum c /\
    forall x, x < 128 -> ignorecase_eq db c x = (ascii_lower c =? ascii_lower x).

(** The dictionary [{label: [term, ...], ...}] of [str] keywords. *)
Definition vocabulary (terms : list str) : pyobj :=
  List_ (List.map (fun t => Scalar (Str_ t)) terms).

(** Compile, then classify one text with the result. *)
Definition compile_and_classify (db : UnicodeDB) (dictionaries : dict pyobj)
           (text : scalar) : result str :=
  compiled <- compile_patterns dictionaries ;;
  classify_text db text compiled.

(** ** What a match is, in terms of the text *)

Section Occurrences.
Variable db : UnicodeDB.

(** The character left of the position reached after [pre]. *)
Definition char_before (pre : str) : option codepoint :=
  fold_left (fun _ x => Some x) pre None.

(** [window] spells [term] up to case. *)
Definition same_ignoring_case (term window : str) : Prop :=
  Forall2 (fun c x => ignorecase_eq db c x = true) term window.

(** [term] occurs somewhere in [text], up to case. *)
Definition occurs (term text : str) : Prop :=
  exists pre window post,
    text = pre ++ window ++ post /\ same_ignoring_case term window.

(** [term] occurs in [text], up to case, between two word boundaries. *)
Definition occurs_as_word (term text : str) : Prop :=
  exists pre window post,
    text = pre ++ window ++ post /\ same_ignoring_case term window /\
    at_boundary db (char_before pre) (hd_error (window ++ post)) = true /\
    at_boundary db (char_before (pre ++ window)) (hd_error post) = true.
End Occurrences.

(** ** Patterns of keywords *)

Definition phrase_pattern (term : str) : Pattern :=
  re_compile (List.map LITERAL term) re_I.

Definition word_pattern (term : str) : Pattern :=
  re_compile (AT_BOUNDARY :: List.map LITERAL term ++ [AT_BOUNDARY]) re_I.

(** The pattern compiled from a keyword. *)
Definition keyword_pattern (term : str) : Pattern :=
  if str_contains (py " ") term then phrase_pattern term else word_pattern term.

(** ** Positions in a text *)

(** The character left of the position reached after [mid], when
    [before] was left of its start. *)
Definition after (before : option codepoint) (mid : str) : option codepoint :=
  fold_left (fun _ x => Some x) mid before.

(** ** Labels that hit *)

(** Some pattern of the list matches the text. *)
Definition any_hit (db : UnicodeDB) (text : str) (patterns : list Pattern)
  : bool :=
  existsb (fun p => search db p text) patterns.

(** The labels with such a pattern, in the order of the dictionary. *)
Definition hit_labels (db : UnicodeDB) (text : str)
           (compiled : dict (list Pattern)) : list str :=
  keys (filter (fun item => any_hit db text (snd item)) compiled).

(** [found] keeps some elements of [all], in the order of [all]. *)
Inductive subsequence (A : Type) : list A -> list A -> Prop :=
| subsequence_nil : subsequence [] []
| subsequence_keep x found all :
    subsequence found all -> subsequence (x :: found) (x :: all)
| subsequence_skip x found all :
    subsequence found all -> subsequence found (x :: all).

(** ** Inputs within ASCII *)

Definition ascii_str (s : str) : bool := forallb (fun c => c <? 128) s.

Definition ascii_node (n : re_node) : bool :=
  match n with
  | LITERAL c => c <? 128
  | AT_BOUNDARY => true
  end.

Definition ascii_compiled (compiled : dict (list Pattern)) : bool :=
  forallb (fun item => forallb (fun p => forallb ascii_node (nodes p)) (snd item))
          compiled.

(** The inputs on which the ASCII part of the tables is all that matters. *)
Definition ascii_input (dictionaries : dict pyobj) (text : str) : bool :=
  match compile_patterns dictionaries with
  | Ok compiled => ascii_compiled compiled && ascii_str text
  | Raise _ => true
  end.

Definition ascii_opt (o : option codepoint) : bool :=
  match o with
  | Some c => c <? 128
  | None => true
  end.

(** ** Lower case *)

Definition lower_str (s : str) : str := List.map ascii_lower s.

Definition lower_node (n : re_node) : re_node :=
  match n with
  | LITERAL c => LITERAL (ascii_lower c)
  | AT_BOUNDARY => AT_BOUNDARY
  end.

(** ** Values of the wrong type *)

Definition is_str_scalar (v : scalar) : bool :=
  match v with
  | Str_ _ => true
  | _ => false
  end.

(** No label has a pattern. *)
Definition no_pattern (compiled : dict (list Pattern)) : bool :=
  forallb (fun item => match snd item with [] => true | _ :: _ => false end)
          compiled.

Definition is_str (o : pyobj) : bool :=
  match o with
  | Scalar (Str_ _) => true
  | _ => false
  end.

(** The vocabulary can be iterated, and every element met is a [str]. *)
Definition iterable_as_strings (vocab : pyobj) : bool :=
  match py_iter vocab with
  | Ok terms => forallb is_str terms
  | Raise _ => false
  end.

(** The exception that compiling one vocabulary raises, if any: the one of
    the iteration, or the one of the first term that is no [str]. *)
Definition vocab_error (vocab : pyobj) : option exn :=
  match py_iter vocab with
  | Raise e => Some e
  | Ok terms =>
      match find (fun t => negb (is_str t)) terms with
      | Some t => Some (TypeError (type_name t))
      | None => None
      end
  end.

Definition values V (d : dict V) : list V := List.map snd d.

Fixpoint first_error (vocabs : list pyobj) : option exn :=
  match vocabs with
  | [] => None
  | vocab :: rest =>
      match vocab_error vocab with
      | Some e => Some e
      | None => first_error rest
      end
  end.

(** "act", a tab, "now". *)
Definition act_tab_now : str := (py "act" ++ [9%N] ++ py "now")%list.

(** ** The rest of the program *)

(** [default_dictionaries()] *)
Definition default_dictionaries : dict pyobj :=
  [(py "urgency_marketing",
    vocabulary
      [py "limited"; py "limited time"; py "limited run";
       py "limited edition"; py "order now"; py "last chance"; py "hurry";
       py "while supplies last"; py "before they're gone"; py "selling out";
       py "selling fast"; py "act now"; py "don't wait"; py "today only";
       py "expires soon"; py "final hours"; py "almost gone"]);
   (py "exclusive_marketing",
    vocabulary
      [py "exclusive"; py "exclusively"; py "exclusive offer";
       py "exclusive deal"; py "members only"; py "vip"; py "special access";
       py "invitation only"; py "premium"; py "privileged";
       py "limited access"; py "select customers"; py "insider";
       py "private sale"; py "early access"])].

(** The loop over the parsed JSON, [for k, v in user_dict.items(): if
    isinstance(v, str): user_dict[k] = [v]]: the items are visited in
    order while the dictionary is assigned to at the key in hand. *)
Fixpoint normalize_items (items : list (str * pyobj)) (user_dict : dict pyobj)
  : dict pyobj :=
  match items with
  | [] => user_dict
  | (k, v) :: rest =>
      normalize_items rest
        (if is_str v then dict_setitem k (List_ [v]) user_dict else user_dict)
  end.

Definition normalize_values (user_dict : dict pyobj) : dict pyobj :=
  normalize_items user_dict user_dict.

(** What the loop makes of one item. *)
Definition normalized_item (item : str * pyobj) : str * pyobj :=
  (fst item, if is_str (snd item) then List_ [snd item] else snd item).

(** ** Dictionaries of keywords *)

(** The dictionary whose vocabularies are lists of [str]. *)
Definition str_dictionary (d : list (str * list str)) : dict pyobj :=
  List.map (fun item => (fst item, vocabulary (snd item))) d.

(** What the sidebar accepts as a vocabulary: one string, or a list. *)
Inductive keywords_json :=
| One (s : str)
| Many (terms : list str).

Definition json_value (v : keywords_json) : pyobj :=
  match v with
  | One s => Scalar (Str_ s)
  | Many terms => vocabulary terms
  end.

Definition keyword_list (v : keywords_json) : list str :=
  match v with
  | One s => [s]
  | Many terms => terms
  end.

Definition user_dictionary (d : list (str * keywords_json)) : dict pyobj :=
  List.map (fun item => (fst item, json_value (snd item))) d.

(** The same dictionary with every vocabulary written as a list. *)
Definition as_lists (d : list (str * keywords_json)) : list (str * list str) :=
  List.map (fun item => (fst item, keyword_list (snd item))) d.

(** What such a dictionary compiles to. *)
Definition compiled_keywords (d : list (str * list str))
  : dict (list Pattern) :=
  List.map (fun item => (fst item, List.map keyword_pattern (snd item))) d.

(** The same dictionary with every keyword in lower case. *)
Definition lower_keywords (d : list (str * list str)) : list (str * list str) :=
  List.map (fun item => (fst item, List.map lower_str (snd item))) d.

(** The pattern of the keyword matches the text. *)
Definition keyword_hits (db : UnicodeDB) (text term : str) : bool :=
  search db (keyword_pattern term) text.

(** The labels with such a keyword, in the order of the dictionary. *)
Definition labels_of (db : UnicodeDB) (text : str) (d : list (str * list str))
  : list str :=
  List.map fst (filter (fun item => existsb (keyword_hits db text) (snd item)) d).

(** The keyword occurs in the text the way its kind asks for. *)
Definition keyword_occurs (db : UnicodeDB) (term text : str) : Prop :=
  if str_contains (py " ") term then occurs db term text
  else occurs_as_word db term text.

(** A label that is not empty and holds no comma. *)
Definition plain_label (label : str) : bool :=
  negb (existsb (N.eqb 44) label) &&
  match label with
  | [] => false
  | _ :: _ => true
  end.

(** * The proofs *)

(** ** The matcher *)

Section MatchingFacts.
Variable db : UnicodeDB.

Lemma after_app before s t : after before (s ++ t) = after (after before s) t.
Proof. apply fold_left_app. Qed.

Lemma match_here_literals flags term :
  forall ns before rest,
    match_here db flags (List.map LITERAL term ++ ns) before rest = true <->
    exists window post,
      rest = window ++ post /\
      Forall2 (fun c x => literal_eq db flags c x = true) term window /\
      match_here db flags ns (after before window) post = true.
Proof.
  induction term as [|c term IH]; intros ns before rest; cbn [List.map app].
  - split.
    + intros H. exists [], rest. repeat split; [constructor | exact H].
    + intros (window & post & -> & Hw & H). inversion Hw; subst. exact H.
  - cbn [match_here]. destruct rest as [|x rest].
    + split; [discriminate|].
      intros (window & post & E & Hw & _). inversion Hw; subst. discriminate.
    + rewrite andb_true_iff, IH. split.
      * intros (Hc & window & post & -> & Hw & H).
        exists (x :: window), post. repeat split; [constructor; assumption | exact H].
      * intros (window & post & E & Hw & H).
        inversion Hw as [|? y ? w' Hc Hw']; subst. cbn in E. injection E as -> ->.
        split; [exact Hc|]. exists w', post. repeat split; assumption.
Qed.

Lemma search_from_spec flags ns :
  forall before rest,
    search_from db flags ns before rest = true <->
    exists pre post,
      rest = pre ++ post /\
      match_here db flags ns (after before pre) post = true.
Proof.
  intros before rest; revert before.
  induction rest as [|x rest IH]; intros before; cbn [search_from].
  - rewrite orb_false_r. split.
    + intros H. exists [], []. split; [reflexivity | exact H].
    + intros (pre & post & E & H).
      symmetry in E. apply app_eq_nil in E as [-> ->]. exact H.
  - rewrite orb_true_iff, IH. split.
    + intros [H | (pre & post & -> & H)].
      * exists [], (x :: rest). split; [reflexivity | exact H].
      * exists (x :: pre), post. split; [reflexivity | exact H].
    + intros (pre & post & E & H). destruct pre as [|y pre].
      * left. cbn in E. subst post. exact H.
      * right. cbn in E. injection E as -> ->. exists pre, post.
        split; [reflexivity | exact H].
Qed.

(** A pattern of literals finds the occurrences of the term. *)
Lemma search_phrase term text :
  search db (re_compile (List.map LITERAL term) re_I) text = true <->
  occurs db term text.
Proof.
  unfold search, occurs, same_ignoring_case; cbn [nodes flag_I re_compile].
  rewrite search_from_spec. split.
  - intros (pre & post & -> & H).
    rewrite <- (app_nil_r (List.map LITERAL term)) in H.
    apply match_here_literals in H as (window & post' & -> & Hw & _).
    exists pre, window, post'. split; [reflexivity | exact Hw].
  - intros (pre & window & post & -> & Hw).
    exists pre, (window ++ post). split; [reflexivity|].
    rewrite <- (app_nil_r (List.map LITERAL term)).
    apply match_here_literals. exists window, post.
    repeat split; assumption.
Qed.

(** A pattern of literals between two [\b] finds the occurrences of the
    term that stand between word boundaries. *)
Lemma search_word term text :
  search db
    (re_compile (AT_BOUNDARY :: List.map LITERAL term ++ [AT_BOUNDARY]) re_I)
    text = true <->
  occurs_as_word db term text.
Proof.
  unfold search, occurs_as_word, same_ignoring_case, char_before.
  cbn [nodes flag_I re_compile].
  rewrite search_from_spec. split.
  - intros (pre & post & -> & H). cbn [match_here] in H.
    apply andb_true_iff in H as [Hb H].
    apply match_here_literals in H as (window & post' & -> & Hw & H).
    cbn [match_here] in H. rewrite andb_true_r in H.
    exists pre, window, post'. repeat split; try assumption.
    fold (after None pre). fold (after None (pre ++ window)).
    rewrite after_app. exact H.
  - intros (pre & window & post & -> & Hw & Hb & He).
    exists pre, (window ++ post). split; [reflexivity|].
    cbn [match_here]. apply andb_true_iff. split; [exact Hb|].
    apply match_here_literals. exists window, post.
    repeat split; try assumption.
    cbn [match_here]. rewrite andb_true_r.
    fold (after None (pre ++ window)) in He. rewrite after_app in He. exact He.
Qed.
End MatchingFacts.

(** ** [compile_patterns] builds one pattern per keyword *)

Lemma compile_term_str term :
  compile_term (Scalar (Str_ term)) =
  Ok (if str_contains (py " ") term then phrase_pattern term
      else word_pattern term).
Proof.
  unfold compile_term; cbn [py_contains bind re_escape].
  destruct (str_contains (py " ") term); reflexivity.
Qed.

Lemma compile_vocab_app terms :
  forall acc,
    compile_vocab terms acc =
    ps <- compile_vocab terms [] ;; Ok (acc ++ ps).
Proof.
  induction terms as [|t terms IH]; intros acc; cbn [compile_vocab].
  - cbn. now rewrite app_nil_r.
  - destruct (compile_term t) as [p|e]; cbn [bind]; [|reflexivity].
    rewrite (IH (acc ++ [p])), (IH ([] ++ [p])).
    destruct (compile_vocab terms []) as [ps|e]; cbn [bind]; [|reflexivity].
    now rewrite <- app_assoc.
Qed.

Lemma compile_vocab_cons t terms :
  compile_vocab (t :: terms) [] =
  p <- compile_term t ;; ps <- compile_vocab terms [] ;; Ok (p :: ps).
Proof.
  cbn [compile_vocab]. destruct (compile_term t) as [p|e]; cbn [bind]; [|reflexivity].
  now rewrite compile_vocab_app.
Qed.

(** Every pattern of a compiled vocabulary is the pattern of one term. *)
Lemma compile_vocab_In terms :
  forall ps p,
    compile_vocab terms [] = Ok ps -> In p ps ->
    exists t, In t terms /\ compile_term t = Ok p.
Proof.
  induction terms as [|t terms IH]; intros ps p H Hin.
  - cbn in H. injection H as <-. destruct Hin.
  - rewrite compile_vocab_cons in H.
    destruct (compile_term t) as [p0|e] eqn:Et; cbn [bind] in H; [|discriminate].
    destruct (compile_vocab terms []) as [ps0|e] eqn:Ev; cbn [bind] in H;
      [|discriminate].
    injection H as <-. destruct Hin as [<- | Hin].
    + exists t. split; [now left | exact Et].
    + destruct (IH ps0 p eq_refl Hin) as (t' & Ht' & Hc).
      exists t'. split; [now right | exact Hc].
Qed.

Lemma dict_setitem_In V k (v : V) d item :
  In item (dict_setitem k v d) -> item = (k, v) \/ In item d.
Proof.
  induction d as [|[k' v'] d IH]; cbn [dict_setitem].
  - intros [<- | []]. now left.
  - destruct (str_eqb k k').
    + intros [<- | H]; [now left | right; now right].
    + intros [<- | H]; [right; now left|].
      destruct (IH H) as [-> | H']; [now left | right; now right].
Qed.

(** Every item of a compiled dictionary holds the compiled vocabulary of
    an item of the source, or was there before. *)
Lemma compile_items_In items :
  forall acc compiled label ps,
    compile_items items acc = Ok compiled -> In (label, ps) compiled ->
    In (label, ps) acc \/
    exists vocab terms,
      In (label, vocab) items /\ py_iter vocab = Ok terms /\
      compile_vocab terms [] = Ok ps.
Proof.
  induction items as [|[l v] items IH]; intros acc compiled label ps H Hin.
  - cbn in H. injection H as <-. now left.
  - cbn [compile_items] in H.
    destruct (py_iter v) as [terms|e] eqn:Ei; cbn [bind] in H; [|discriminate].
    destruct (compile_vocab terms []) as [ps0|e] eqn:Ev; cbn [bind] in H;
      [|discriminate].
    destruct (IH _ _ _ _ H Hin) as [Hacc | (vocab & terms' & Hv & Hi & Hc)].
    + apply dict_setitem_In in Hacc as [E | Hacc]; [|now left].
      injection E as -> ->. right. exists v, terms.
      repeat split; [now left | assumption | assumption].
    + right. exists vocab, terms'. repeat split; [now right | assumption | assumption].
Qed.

(** ** [classify_text] on a [str] *)

Section ClassifyFacts.
Variable db : UnicodeDB.

Lemma any_search_str text patterns :
  any_search db (Str_ text) patterns = Ok (any_hit db text patterns).
Proof.
  induction patterns as [|p ps IH]; [reflexivity|].
  cbn [any_search Pattern_search bind any_hit existsb].
  destruct (search db p text); [reflexivity | exact IH].
Qed.

Lemma hits_str text compiled :
  hits db (Str_ text) compiled = Ok (hit_labels db text compiled).
Proof.
  induction compiled as [|[label ps] items IH]; [reflexivity|].
  cbn [hits]. rewrite any_search_str, IH. cbn [bind].
  unfold hit_labels, keys. cbn [filter snd].
  destruct (any_hit db text ps); reflexivity.
Qed.

Lemma classify_text_str text compiled :
  classify_text db (Str_ text) compiled =
  Ok (str_join (py ",") (hit_labels db text compiled)).
Proof.
  unfold classify_text. cbn [pd_isna]. now rewrite hits_str.
Qed.
End ClassifyFacts.

(** ** The ASCII range decides ASCII inputs *)

Section Ascii.
Variable db : UnicodeDB.
Hypothesis compatible : ascii_compatible db.

Lemma is_word_at_ascii o :
  ascii_opt o = true -> is_word_at db o = is_word_at ascii_db o.
Proof.
  destruct o as [c|]; [|reflexivity]. cbn. intros H.
  apply N.ltb_lt in H. unfold is_word.
  now destruct (compatible H) as [-> _].
Qed.

Lemma literal_eq_ascii flags c x :
  (c <? 128) = true -> (x <? 128) = true ->
  literal_eq db flags c x = literal_eq ascii_db flags c x.
Proof.
  intros Hc Hx. apply N.ltb_lt in Hc, Hx. unfold literal_eq.
  destruct flags; [|reflexivity].
  destruct (compatible Hc) as [_ H]. now rewrite (H x Hx).
Qed.

Lemma match_here_ascii flags ns :
  forall before rest,
    forallb ascii_node ns = true -> ascii_opt before = true ->
    ascii_str rest = true ->
    match_here db flags ns before rest = match_here ascii_db flags ns before rest.
Proof.
  induction ns as [|n ns IH]; intros before rest Hns Hb Hr; [reflexivity|].
  cbn [forallb] in Hns. apply andb_true_iff in Hns as [Hn Hns].
  destruct n as [c|]; cbn [match_here].
  - destruct rest as [|x rest]; [reflexivity|].
    cbn [ascii_str forallb] in Hr. apply andb_true_iff in Hr as [Hx Hr].
    rewrite (literal_eq_ascii flags c x Hn Hx).
    now rewrite (IH (Some x) rest Hns Hx Hr).
  - unfold at_boundary.
    rewrite (is_word_at_ascii before Hb).
    assert (Hh : ascii_opt (hd_error rest) = true).
    { destruct rest as [|x rest]; [reflexivity|].
      cbn in Hr |- *. now apply andb_true_iff in Hr as [Hx _]. }
    rewrite (is_word_at_ascii _ Hh).
    now rewrite (IH before rest Hns Hb Hr).
Qed.

Lemma search_from_ascii flags ns :
  forall before rest,
    forallb ascii_node ns = true -> ascii_opt before = true ->
    ascii_str rest = true ->
    search_from db flags ns before rest =
    search_from ascii_db flags ns before rest.
Proof.
  intros before rest; revert before.
  induction rest as [|x rest IH]; intros before Hns Hb Hr; cbn [search_from].
  - now rewrite match_here_ascii.
  - rewrite match_here_ascii by assumption.
    cbn [ascii_str forallb] in Hr. apply andb_true_iff in Hr as [Hx Hr].
    now rewrite (IH (Some x) Hns Hx Hr).
Qed.

Lemma any_hit_ascii text patterns :
  forallb (fun p => forallb ascii_node (nodes p)) patterns = true ->
  ascii_str text = true ->
  any_hit db text patterns = any_hit ascii_db text patterns.
Proof.
  intros Hp Ht. induction patterns as [|p ps IH]; [reflexivity|].
  cbn [forallb] in Hp. apply andb_true_iff in Hp as [Hn Hp].
  unfold any_hit; cbn [existsb]. fold (any_hit db text ps).
  fold (any_hit ascii_db text ps). rewrite (IH Hp). unfold search.
  now rewrite search_from_ascii.
Qed.

Lemma hit_labels_ascii text compiled :
  ascii_compiled compiled = true -> ascii_str text = true ->
  hit_labels db text compiled = hit_labels ascii_db text compiled.
Proof.
  intros Hc Ht. induction compiled as [|[l ps] items IH]; [reflexivity|].
  cbn [ascii_compiled forallb snd] in Hc. apply andb_true_iff in Hc as [Hp Hc].
  unfold hit_labels, keys; cbn [filter snd].
  rewrite (any_hit_ascii _ _ Hp Ht).
  fold (ascii_compiled items) in Hc. specialize (IH Hc).
  unfold hit_labels, keys in IH.
  destruct (any_hit ascii_db text ps); cbn [List.map]; now rewrite IH.
Qed.

Lemma compile_and_classify_ascii dictionaries text :
  ascii_input dictionaries text = true ->
  compile_and_classify db dictionaries (Str_ text) =
  compile_and_classify ascii_db dictionaries (Str_ text).
Proof.
  unfold ascii_input, compile_and_classify.
  destruct (compile_patterns dictionaries) as [compiled|e]; [|reflexivity].
  intros H. apply andb_true_iff in H as [Hc Ht]. cbn [bind].
  rewrite !classify_text_str. now rewrite hit_labels_ascii.
Qed.
End Ascii.

(** ** The dictionary of one keyword *)

(** An example within ASCII is settled by evaluation on [ascii_db]. *)
Ltac evaluate_on_ascii Hdb :=
  rewrite (compile_and_classify_ascii Hdb) by reflexivity;
  vm_compute; reflexivity.

Lemma compile_single label term :
  compile_patterns [(label, vocabulary [term])] =
  Ok [(label, [if str_contains (py " ") term then phrase_pattern term
               else word_pattern term])].
Proof.
  unfold compile_patterns, vocabulary.
  cbn [compile_items py_iter List.map bind].
  rewrite compile_vocab_cons, compile_term_str. reflexivity.
Qed.

Lemma classify_single db label p text :
  classify_text db (Str_ text) [(label, [p])] =
  Ok (if search db p text then label else py "").
Proof.
  rewrite classify_text_str. unfold hit_labels, keys, any_hit.
  cbn [filter snd existsb]. rewrite orb_false_r.
  destruct (search db p text); reflexivity.
Qed.

Local Open Scope string_scope.



(** C2. A keyword with a space is matched as a plain substring: the
    dictionary [{label: [term]}] gives [label] to exactly the texts in
    which [term] occurs (up to case) anywhere, whatever stands around the
    occurrence. For [{"urgency": ["act now"]}] the text "please act now!!"
    yields "urgency" and "actnow" yields "". *)
Theorem multi_word_keyword_is_substring
        (db : UnicodeDB) (label term text : str) :
  ascii_compatible db ->
  str_contains (py " ") term = true ->
  (exists hit : bool,
      (hit = true <-> occurs db term text) /\
      compile_and_classify db [(label, vocabulary [term])] (Str_ text) =
      Ok (if hit then label else py "")) /\
  compile_and_classify db [(py "urgency", vocabulary [py "act now"])]
                       (Str_ (py "please act now!!")) = Ok (py "urgency") /\
  compile_and_classify db [(py "urgency", vocabulary [py "act now"])]
                       (Str_ (py "actnow")) = Ok (py "").
Proof.
  intros Hdb Hterm. split; [|split].
  - exists (search db (phrase_pattern term) text). split.
    + apply search_phrase.
    + unfold compile_and_classify.
      rewrite compile_single, Hterm. cbn [bind]. apply classify_single.
  - evaluate_on_ascii Hdb.
  - evaluate_on_ascii Hdb.
Qed.

Lemma multi_word_keyword_is_substring_witness :
  (exists hit : bool,
      (hit = true <-> occurs ascii_db (py "act now") (py "react nowhere")) /\
      compile_and_classify ascii_db [(py "urgency", vocabulary [py "act now"])]
                           (Str_ (py "react nowhere")) =
      Ok (if hit then py "urgency" else py "")) /\
  compile_and_classify ascii_db [(py "urgency", vocabulary [py "act now"])]
                       (Str_ (py "please act now!!")) = Ok (py "urgency") /\
  compile_and_classify ascii_db [(py "urgency", vocabulary [py "act now"])]
                       (Str_ (py "actnow")) = Ok (py "").
Proof.
  apply (@multi_word_keyword_is_substring
           ascii_db (py "urgency") (py "act now") (py "react nowhere")).
  - intros c Hc. split; [reflexivity | intros x Hx; reflexivity].
  - vm_compute. reflexivity.
Defined.

(** C4. A missing text ([None] or NaN) is classified as the empty string,
    whatever the compiled dictionary holds, and nothing is raised. *)
Theorem missing_text_has_no_label
        (db : UnicodeDB) (text : scalar) (compiled : dict (list Pattern)) :
  pd_isna text = true ->
  classify_text db text compiled = Ok (py "").
Proof.
  intros H. unfold classify_text. now rewrite H.
Qed.

Lemma missing_text_has_no_label_witness :
  classify_text ascii_db (Float_ nan) [(py "x", [word_pattern (py "nan")])] =
  Ok (py "") /\
  classify_text ascii_db None_ [(py "x", [word_pattern (py "none")])] =
  Ok (py "").
Proof.
  split.
  - apply (@missing_text_has_no_label ascii_db (Float_ nan)). reflexivity.
  - apply (@missing_text_has_no_label ascii_db None_). reflexivity.
Defined.

(** ** The keyword of no character *)

Lemma search_from_empty_word db text :
  forall before,
    is_word_at db before = false ->
    search_from db re_I [AT_BOUNDARY; AT_BOUNDARY] before text =
    existsb (is_word db) text.
Proof.
  induction text as [|x text IH]; intros before Hb;
    cbn [search_from match_here existsb hd_error]; unfold at_boundary;
    rewrite Hb; cbn [is_word_at xorb].
  - reflexivity.
  - destruct (is_word db x) eqn:Hx; [reflexivity|].
    cbn [andb orb]. apply IH. exact Hx.
Qed.

Lemma search_empty_word db text :
  search db (word_pattern []) text = existsb (is_word db) text.
Proof. apply search_from_empty_word. reflexivity. Qed.

(** ** The text of no character *)

Lemma compile_term_Ok term p :
  compile_term term = Ok p ->
  exists s,
    term = Scalar (Str_ s) /\
    p = if str_contains (py " ") s then phrase_pattern s else word_pattern s.
Proof.
  destruct term as [[| b | n | x | s] | xs | kvs]; try discriminate.
  - rewrite compile_term_str. intros [= <-]. now exists s.
  - unfold compile_term; cbn [py_contains bind re_escape].
    destruct (existsb _ xs); discriminate.
  - unfold compile_term; cbn [py_contains bind re_escape].
    destruct (existsb _ kvs); discriminate.
Qed.

Lemma search_nil_compiled db term p :
  compile_term term = Ok p -> search db p [] = false.
Proof.
  intros H. apply compile_term_Ok in H as (s & -> & ->).
  destruct (str_contains (py " ") s) eqn:Hs.
  - destruct s as [|c s]; [discriminate Hs | reflexivity].
  - unfold search; cbn. reflexivity.
Qed.

(** C10. The empty text gets no label from any compiled dictionary: no
    pattern that [compile_patterns] builds matches it, the pattern of an
    empty keyword included. *)
Theorem empty_text_has_no_label
        (db : UnicodeDB) (dictionaries : dict pyobj)
        (compiled : dict (list Pattern)) :
  compile_patterns dictionaries = Ok compiled ->
  classify_text db (Str_ (py "")) compiled = Ok (py "") /\
  Forall (fun item => Forall (fun p => search db p (py "") = false) (snd item))
         compiled.
Proof.
  intros Hc.
  assert (Hall : Forall (fun item =>
                           Forall (fun p => search db p (py "") = false) (snd item))
                        compiled).
  { apply Forall_forall. intros [label ps] Hin. apply Forall_forall. intros p Hp.
    destruct (@compile_items_In dictionaries [] compiled label ps Hc Hin)
      as [[] | (v & terms & _ & _ & Hv)].
    destruct (@compile_vocab_In terms ps p Hv Hp) as (t & _ & Ht).
    exact (@search_nil_compiled db t p Ht). }
  split; [|exact Hall].
  rewrite classify_text_str. unfold hit_labels.
  replace (filter _ compiled) with (@nil (str * list Pattern)); [reflexivity|].
  symmetry. clear Hc. induction Hall as [|[label ps] items Hps _ IH]; [reflexivity|].
  cbn [filter snd]. cbn [snd] in Hps.
  assert (E : any_hit db (py "") ps = false).
  { unfold any_hit. induction Hps as [|p ps Hp _ IHp]; [reflexivity|].
    cbn [existsb]. now rewrite Hp, IHp. }
  rewrite E. exact IH.
Qed.

Lemma empty_text_has_no_label_witness :
  classify_text ascii_db (Str_ (py ""))
    [(py "x", [word_pattern (py ""); phrase_pattern (py "a b")])] = Ok (py "") /\
  Forall (fun item =>
            Forall (fun p => search ascii_db p (py "") = false) (snd item))
         [(py "x", [word_pattern (py ""); phrase_pattern (py "a b")])].
Proof.
  apply (@empty_text_has_no_label ascii_db
           [(py "x", vocabulary [py ""; py "a b"])]).
  vm_compute. reflexivity.
Defined.

(** C7. The keyword [""] is compiled to [\b\b], which matches exactly the
    texts that hold a word character: alone under its label, it gives the
    label to those texts and to no other. *)
Theorem empty_keyword_matches_at_word_boundaries
        (db : UnicodeDB) (label text : str) :
  compile_term (Scalar (Str_ (py ""))) = Ok (word_pattern (py "")) /\
  search db (word_pattern (py "")) text = existsb (is_word db) text /\
  compile_and_classify db [(label, vocabulary [py ""])] (Str_ text) =
  Ok (if existsb (is_word db) text then label else py "").
Proof.
  split; [reflexivity|]. split; [apply search_empty_word|].
  unfold compile_and_classify. rewrite compile_single. cbn [bind].
  change (str_contains (py " ") (py "")) with false. cbv iota.
  rewrite classify_single. now rewrite search_empty_word.
Qed.

(** C7, as stated, fails: the empty keyword alone gives its label to the
    text "a". *)
Lemma empty_keyword_matches_a_letter :
  compile_and_classify ascii_db [(py "x", vocabulary [py ""])] (Str_ (py "a")) =
  Ok (py "x").
Proof. vm_compute. reflexivity. Qed.

(** ** Texts that are no [str] *)

Lemma hits_not_str db text compiled :
  is_str_scalar text = false ->
  hits db text compiled =
  if no_pattern compiled then Ok []
  else Raise (TypeError (scalar_type_name text)).
Proof.
  intros Ht. induction compiled as [|[label ps] items IH]; [reflexivity|].
  cbn [hits no_pattern forallb snd]. fold (no_pattern items).
  destruct ps as [|p ps]; cbn [any_search bind andb].
  - rewrite IH. destruct (no_pattern items); reflexivity.
  - destruct text; try discriminate Ht; reflexivity.
Qed.

Lemma classify_text_total db text compiled :
  is_str_scalar text || pd_isna text = true ->
  exists labels, classify_text db text compiled = Ok labels.
Proof.
  intros H. destruct (pd_isna text) eqn:Hna.
  - exists (py ""). unfold classify_text. now rewrite Hna.
  - rewrite orb_false_r in H. destruct text; try discriminate H.
    eexists. apply classify_text_str.
Qed.

Lemma apply_classify_total db astype_str column compiled :
  (forall cell,
      is_str_scalar (astype_str cell) || pd_isna (astype_str cell) = true) ->
  exists labels,
    apply_classify db astype_str column compiled = Ok labels /\
    List.length labels = List.length column.
Proof.
  intros Hstr. induction column as [|cell column (labels & IH & Hlen)].
  - now exists [].
  - cbn [apply_classify].
    destruct (@classify_text_total db (astype_str cell) compiled (Hstr cell))
      as [l ->].
    rewrite IH. cbn [bind]. exists (l :: labels). split; [reflexivity|].
    cbn [List.length]. now rewrite Hlen.
Qed.

(** C8. A text that is a [str] is classified without error. A present
    text of another type is not converted by [classify_text]: searching
    the first pattern raises [TypeError], and only a dictionary without
    any pattern lets the call return. The conversion is made by the caller,
    [astype(str)]; the cells it yields are [str] (or missing), and the
    whole column is classified without error. *)
Theorem only_str_texts_are_searched
        (db : UnicodeDB) (astype_str : scalar -> scalar)
        (text : scalar) (column : list scalar)
        (compiled : dict (list Pattern)) :
  pd_isna text = false ->
  (forall cell,
      is_str_scalar (astype_str cell) || pd_isna (astype_str cell) = true) ->
  (if is_str_scalar text
   then exists labels, classify_text db text compiled = Ok labels
   else classify_text db text compiled =
        if no_pattern compiled then Ok (py "")
        else Raise (TypeError (scalar_type_name text))) /\
  (exists labels, classify_text db (astype_str text) compiled = Ok labels) /\
  (exists labels,
      apply_classify db astype_str column compiled = Ok labels /\
      List.length labels = List.length column).
Proof.
  intros Hna Hstr. split; [|split].
  - destruct (is_str_scalar text) eqn:Hs.
    + apply classify_text_total. now rewrite Hs.
    + unfold classify_text. rewrite Hna, (@hits_not_str db text compiled Hs).
      destruct (no_pattern compiled); reflexivity.
  - apply classify_text_total. apply Hstr.
  - now apply apply_classify_total.
Qed.

Lemma only_str_texts_are_searched_witness :
  (classify_text ascii_db (Int_ 5) [(py "x", [word_pattern (py "5")])] =
   Raise (TypeError "int")) /\
  (exists labels,
      classify_text ascii_db (Str_ (py "5"))
                    [(py "x", [word_pattern (py "5")])] = Ok labels) /\
  (exists labels,
      apply_classify ascii_db (fun _ => Str_ (py "5")) [Int_ 5; None_]
                     [(py "x", [word_pattern (py "5")])] = Ok labels /\
      List.length labels = List.length [Int_ 5; None_]).
Proof.
  apply (@only_str_texts_are_searched
           ascii_db (fun _ => Str_ (py "5")) (Int_ 5) [Int_ 5; None_]
           [(py "x", [word_pattern (py "5")])]).
  - reflexivity.
  - intros cell. reflexivity.
Defined.

(** C8, as stated, fails: the number 5 is present, the dictionary is well
    formed, and [classify_text] raises. *)
Lemma number_text_raises :
  pd_isna (Int_ 5) = false /\
  compile_and_classify ascii_db [(py "x", vocabulary [py "5"])] (Int_ 5) =
  Raise (TypeError "int").
Proof. split; vm_compute; reflexivity. Qed.

(** ** Vocabularies that are no strings *)

Lemma compile_term_not_str term :
  is_str term = false ->
  compile_term term = Raise (TypeError (type_name term)).
Proof.
  destruct term as [[| b | n | x | s] | xs | kvs]; try discriminate;
    intros _; try reflexivity;
    unfold compile_term; cbn [py_contains bind re_escape];
    match goal with |- context [existsb ?f ?l] => destruct (existsb f l) end;
    reflexivity.
Qed.

Lemma compile_vocab_find terms :
  forall acc,
    compile_vocab terms acc =
    match find (fun t => negb (is_str t)) terms with
    | Some t => Raise (TypeError (type_name t))
    | None => compile_vocab terms acc
    end.
Proof.
  induction terms as [|t terms IH]; intros acc; [reflexivity|].
  cbn [find]. destruct (is_str t) eqn:Ht; cbn [negb].
  - cbn [compile_vocab]. destruct (compile_term t) as [p|e] eqn:Ep; cbn [bind].
    + rewrite IH. destruct (find _ terms); reflexivity.
    + destruct t as [[| | | | s] | |]; try discriminate Ht.
      rewrite compile_term_str in Ep. discriminate Ep.
  - cbn [compile_vocab]. now rewrite (compile_term_not_str _ Ht).
Qed.

Lemma compile_vocab_no_error terms :
  forall acc,
    find (fun t => negb (is_str t)) terms = None ->
    exists ps, compile_vocab terms acc = Ok ps.
Proof.
  induction terms as [|t terms IH]; intros acc H.
  - now exists acc.
  - cbn [find] in H. destruct (is_str t) eqn:Ht; cbn [negb] in H; [|discriminate].
    destruct t as [[| | | | s] | |]; try discriminate Ht.
    cbn [compile_vocab]. rewrite compile_term_str. cbn [bind]. now apply IH.
Qed.

(** Compilation stops at the first vocabulary that raises; the labels
    play no part in it. *)
Lemma compile_items_first_error items :
  forall acc e,
    first_error (values items) = Some e -> compile_items items acc = Raise e.
Proof.
  induction items as [|[label vocab] items IH]; intros acc e H; [discriminate|].
  cbn [values List.map snd first_error] in H. fold (values items) in H.
  cbn [compile_items]. unfold vocab_error in H.
  destruct (py_iter vocab) as [terms|e0]; cbn [bind].
  - rewrite compile_vocab_find.
    destruct (find (fun t => negb (is_str t)) terms) as [t|] eqn:Ef.
    + now injection H as <-.
    + destruct (compile_vocab_no_error terms [] Ef) as [ps ->]. cbn [bind].
      now apply IH.
  - now injection H as <-.
Qed.

Lemma find_none_forallb terms :
  find (fun t => negb (is_str t)) terms = None -> forallb is_str terms = true.
Proof.
  induction terms as [|t terms IH]; [reflexivity|]. cbn [find forallb].
  destruct (is_str t); cbn [negb andb]; [exact IH | discriminate].
Qed.

Lemma vocab_error_None vocab :
  vocab_error vocab = None -> iterable_as_strings vocab = true.
Proof.
  unfold vocab_error, iterable_as_strings.
  destruct (py_iter vocab) as [terms|e]; [|discriminate].
  destruct (find (fun t => negb (is_str t)) terms) eqn:Ef; [discriminate|].
  intros _. now apply find_none_forallb.
Qed.

Lemma first_error_In vocabs vocab :
  In vocab vocabs -> iterable_as_strings vocab = false ->
  exists e, first_error vocabs = Some e.
Proof.
  intros Hin Hv. induction vocabs as [|v vocabs IH]; [destruct Hin|].
  cbn [first_error]. destruct (vocab_error v) as [e|] eqn:Ev; [now exists e|].
  destruct Hin as [-> | Hin]; [|now apply IH].
  rewrite (vocab_error_None _ Ev) in Hv. discriminate.
Qed.

(** C6. A dictionary with a vocabulary that cannot be iterated as strings
    does not compile: [compile_patterns] raises the interpreter's
    [TypeError], so no text is ever classified with it. The exception tells
    the type of the rejected value and is the same under any labels. *)
Theorem bad_vocabulary_raises_TypeError
        (dictionaries : dict pyobj) (label : str) (vocab : pyobj) :
  In (label, vocab) dictionaries ->
  iterable_as_strings vocab = false ->
  exists e,
    compile_patterns dictionaries = Raise e /\
    exn_class e = "TypeError" /\
    first_error (values dictionaries) = Some e /\
    (forall db text, compile_and_classify db dictionaries text = Raise e) /\
    (forall relabelled : dict pyobj,
        values relabelled = values dictionaries ->
        compile_patterns relabelled = Raise e).
Proof.
  intros Hin Hv.
  destruct (@first_error_In (values dictionaries) vocab) as [e He].
  { unfold values. change vocab with (snd (label, vocab)). now apply in_map. }
  { exact Hv. }
  exists e. split; [|split; [|split; [|split]]].
  - now apply compile_items_first_error.
  - now destruct e.
  - exact He.
  - intros db text. unfold compile_and_classify, compile_patterns.
    now rewrite (compile_items_first_error dictionaries [] He).
  - intros relabelled Hr. apply compile_items_first_error. now rewrite Hr.
Qed.

Lemma bad_vocabulary_raises_TypeError_witness :
  exists e,
    compile_patterns [(py "a", List_ [Scalar (Int_ 1)])] = Raise e /\
    exn_class e = "TypeError" /\
    first_error (values [(py "a", List_ [Scalar (Int_ 1)])]) = Some e /\
    (forall db text,
        compile_and_classify db [(py "a", List_ [Scalar (Int_ 1)])] text =
        Raise e) /\
    (forall relabelled : dict pyobj,
        values relabelled = values [(py "a", List_ [Scalar (Int_ 1)])] ->
        compile_patterns relabelled = Raise e).
Proof.
  apply (@bad_vocabulary_raises_TypeError
           [(py "a", List_ [Scalar (Int_ 1)])]
           (py "a") (List_ [Scalar (Int_ 1)])).
  - left. reflexivity.
  - reflexivity.
Defined.

(** C6, as stated, fails: the exception is a [TypeError] about an [int],
    not a [CompileError] about the label "a". *)
Lemma number_keyword_raises_TypeError :
  compile_patterns [(py "a", List_ [Scalar (Int_ 1)])] =
  Raise (TypeError "int") /\
  String.eqb (exn_class (TypeError "int")) "CompileError" = false.
Proof. split; reflexivity. Qed.

(** ** Keywords with white space other than the space *)

Lemma str_contains_space term :
  str_contains (py " ") term = existsb (N.eqb 32) term.
Proof.
  induction term as [|c term IH]; [reflexivity|].
  cbn [str_contains existsb]. rewrite IH. change (py " ") with [32%N].
  cbn [startswith]. now rewrite andb_true_r.
Qed.

(** C5. The kind of a pattern is decided by the space character alone: a
    keyword is compiled as a phrase when it holds a space (code point 32),
    and between two [\b] otherwise. So a keyword with a tab and no space
    is compiled between two [\b], and the text "react<tab>nowhere", in
    which it occurs, gets no label; as a phrase it would match there. *)
Theorem tab_keyword_is_compiled_as_word (term : str) :
  compile_term (Scalar (Str_ term)) =
  Ok (if existsb (N.eqb 32) term then phrase_pattern term
      else word_pattern term) /\
  existsb (N.eqb 9) act_tab_now = true /\
  compile_patterns [(py "urgency", vocabulary [act_tab_now])] =
  Ok [(py "urgency", [word_pattern act_tab_now])] /\
  compile_and_classify ascii_db [(py "urgency", vocabulary [act_tab_now])]
                       (Str_ (py "re" ++ act_tab_now ++ py "here")%list) =
  Ok (py "") /\
  search ascii_db (phrase_pattern act_tab_now)
         (py "re" ++ act_tab_now ++ py "here")%list = true.
Proof.
  split.
  - rewrite compile_term_str. now rewrite str_contains_space.
  - repeat split; vm_compute; reflexivity.
Qed.

(** ** Case *)

Local Open Scope N_scope.

Ltac N_cases :=
  repeat (match goal with
          | |- context [?a <=? ?b] => destruct (N.leb_spec a b)
          | |- context [?a =? ?b] => destruct (N.eqb_spec a b)
          | |- context [?a <? ?b] => destruct (N.ltb_spec a b)
          | H : context [?a <=? ?b] |- _ => destruct (N.leb_spec a b)
          end; cbn [andb orb] in *);
  try reflexivity; try lia.

Lemma ascii_lower_idem c : ascii_lower (ascii_lower c) = ascii_lower c.
Proof. unfold ascii_lower. N_cases. Qed.

Lemma ascii_lower_word c :
  is_word ascii_db (ascii_lower c) = is_word ascii_db c.
Proof.
  unfold is_word, ascii_lower; cbn [isalnum ascii_db]; unfold ascii_isalnum.
  N_cases.
Qed.

Lemma ascii_lower_space c : (32 =? ascii_lower c) = (32 =? c).
Proof. unfold ascii_lower. N_cases. Qed.

Lemma ascii_lower_below c : (c <? 128) = true -> (ascii_lower c <? 128) = true.
Proof. unfold ascii_lower. N_cases. Qed.

Lemma lower_str_ascii s : ascii_str s = true -> ascii_str (lower_str s) = true.
Proof.
  induction s as [|c s IH]; [reflexivity|]. cbn [ascii_str forallb lower_str List.map].
  intros H. apply andb_true_iff in H as [Hc Hs].
  apply andb_true_iff. split; [now apply ascii_lower_below | now apply IH].
Qed.

Lemma lower_str_contains_space s :
  str_contains (py " ") (lower_str s) = str_contains (py " ") s.
Proof.
  induction s as [|c s IH]; [reflexivity|].
  cbn [lower_str List.map str_contains]. fold (lower_str s). rewrite IH.
  change (py " ") with [32]. cbn [startswith]. now rewrite ascii_lower_space.
Qed.

Lemma match_here_lower ns :
  forall before rest,
    match_here ascii_db re_I (List.map lower_node ns)
               (option_map ascii_lower before) (lower_str rest) =
    match_here ascii_db re_I ns before rest.
Proof.
  induction ns as [|n ns IH]; intros before rest; [reflexivity|].
  destruct n as [c|]; cbn [List.map lower_node match_here].
  - destruct rest as [|x rest]; [reflexivity|].
    cbn [lower_str List.map]. fold (lower_str rest).
    rewrite <- (IH (Some x) rest). cbn [option_map].
    unfold literal_eq, re_I; cbn [ignorecase_eq ascii_db].
    now rewrite !ascii_lower_idem.
  - rewrite IH. f_equal. unfold at_boundary. f_equal.
    + destruct before as [b|]; [apply ascii_lower_word | reflexivity].
    + destruct rest as [|x rest]; [reflexivity | apply ascii_lower_word].
Qed.

Lemma search_from_lower ns :
  forall before rest,
    search_from ascii_db re_I (List.map lower_node ns)
                (option_map ascii_lower before) (lower_str rest) =
    search_from ascii_db re_I ns before rest.
Proof.
  intros before rest; revert before.
  induction rest as [|x rest IH]; intros before.
  - cbn [lower_str List.map search_from].
    now rewrite <- (match_here_lower ns before []).
  - cbn [lower_str List.map search_from]. fold (lower_str rest).
    rewrite <- (IH (Some x)).
    now rewrite <- (match_here_lower ns before (x :: rest)).
Qed.

Lemma lower_literals term :
  List.map lower_node (List.map LITERAL term) = List.map LITERAL (lower_str term).
Proof. unfold lower_str. now rewrite !map_map. Qed.

Lemma literals_ascii term :
  ascii_str term = true -> forallb ascii_node (List.map LITERAL term) = true.
Proof.
  induction term as [|c term IH]; [reflexivity|].
  cbn [ascii_str forallb List.map ascii_node]. intros H.
  apply andb_true_iff in H as [-> H]. now apply IH.
Qed.

Lemma keyword_pattern_ascii term :
  ascii_str term = true -> forallb ascii_node (nodes (keyword_pattern term)) = true.
Proof.
  intros H. unfold keyword_pattern.
  destruct (str_contains (py " ") term); cbn [nodes phrase_pattern word_pattern re_compile].
  - now apply literals_ascii.
  - cbn [forallb ascii_node andb]. rewrite forallb_app, (literals_ascii _ H).
    reflexivity.
Qed.

Lemma search_keyword_lower term text :
  search ascii_db (keyword_pattern (lower_str term)) (lower_str text) =
  search ascii_db (keyword_pattern term) text.
Proof.
  unfold keyword_pattern. rewrite lower_str_contains_space.
  destruct (str_contains (py " ") term); unfold search;
    cbn [nodes flag_I phrase_pattern word_pattern re_compile].
  - rewrite <- lower_literals. apply (search_from_lower _ None).
  - rewrite <- lower_literals.
    change (AT_BOUNDARY :: List.map lower_node (List.map LITERAL term) ++ [AT_BOUNDARY])
      with (List.map lower_node (AT_BOUNDARY :: List.map LITERAL term) ++
            List.map lower_node [AT_BOUNDARY])%list.
    rewrite <- map_app. apply (search_from_lower _ None).
Qed.

Local Open Scope string_scope.



(** ** Labels and their order *)

Lemma str_eqb_eq s : forall t, str_eqb s t = true -> s = t.
Proof.
  induction s as [|c s IH]; intros [|x t] H; try discriminate; [reflexivity|].
  cbn [str_eqb] in H. apply andb_true_iff in H as [Hc Hs].
  apply N.eqb_eq in Hc. subst x. f_equal. now apply IH.
Qed.

Lemma dict_setitem_fresh V k (v : V) d :
  ~ In k (keys d) -> dict_setitem k v d = (d ++ [(k, v)])%list.
Proof.
  induction d as [|[k' v'] d IH]; intros Hk; [reflexivity|].
  cbn [dict_setitem]. destruct (str_eqb k k') eqn:E.
  - apply str_eqb_eq in E. subst k'. exfalso. apply Hk. now left.
  - cbn [app]. f_equal. apply IH. intros H. apply Hk. now right.
Qed.

(** A dictionary is compiled label by label, in its own order. *)
Lemma compile_items_keys items :
  forall acc compiled,
    NoDup (keys acc ++ keys items) ->
    compile_items items acc = Ok compiled ->
    keys compiled = (keys acc ++ keys items)%list.
Proof.
  induction items as [|[label vocab] items IH]; intros acc compiled Hnd H.
  - cbn in H. injection H as <-. cbn. now rewrite app_nil_r.
  - cbn [compile_items] in H.
    destruct (py_iter vocab) as [terms|e]; cbn [bind] in H; [|discriminate].
    destruct (compile_vocab terms []) as [ps|e]; cbn [bind] in H; [|discriminate].
    cbn [keys List.map fst] in Hnd |- *. fold (keys items) in Hnd |- *.
    assert (Hfresh : ~ In label (keys acc)).
    { apply NoDup_remove_2 in Hnd. intros Hin. apply Hnd.
      apply in_or_app. now left. }
    rewrite (@dict_setitem_fresh _ label ps acc Hfresh) in H.
    apply IH in H.
    + rewrite H. unfold keys. rewrite map_app. cbn [List.map fst].
      now rewrite <- app_assoc.
    + unfold keys. rewrite map_app. cbn [List.map fst].
      now rewrite <- app_assoc.
Qed.

Lemma subsequence_In A (found all : list A) x :
  subsequence found all -> In x found -> In x all.
Proof.
  induction 1 as [|y found all _ IH|y found all _ IH]; intros Hin.
  - destruct Hin.
  - destruct Hin as [-> | Hin]; [now left | right; now apply IH].
  - right. now apply IH.
Qed.

Lemma subsequence_NoDup A (found all : list A) :
  subsequence found all -> NoDup all -> NoDup found.
Proof.
  induction 1 as [|y found all Hs IH|y found all Hs IH]; intros Hnd.
  - constructor.
  - inversion Hnd as [|? ? Hy Hall]; subst. constructor; [|now apply IH].
    intros Hin. apply Hy. exact (@subsequence_In A found all y Hs Hin).
  - inversion Hnd; subst. now apply IH.
Qed.

Lemma hit_labels_subsequence db text compiled :
  subsequence (hit_labels db text compiled) (keys compiled).
Proof.
  unfold hit_labels, keys.
  induction compiled as [|[label ps] items IH]; [constructor|].
  cbn [filter snd List.map fst]. destruct (any_hit db text ps); cbn [List.map fst];
    constructor; exact IH.
Qed.

Lemma hit_labels_In db text compiled label :
  In label (hit_labels db text compiled) <->
  exists ps p, In (label, ps) compiled /\ In p ps /\ search db p text = true.
Proof.
  unfold hit_labels, keys. rewrite in_map_iff. split.
  - intros ([l ps] & E & Hin). cbn [fst] in E. subst l.
    apply filter_In in Hin as [Hin Hhit]. cbn [snd] in Hhit.
    unfold any_hit in Hhit. apply existsb_exists in Hhit as (p & Hp & Hs).
    now exists ps, p.
  - intros (ps & p & Hin & Hp & Hs). exists (label, ps). split; [reflexivity|].
    apply filter_In. split; [exact Hin|]. cbn [snd].
    unfold any_hit. apply existsb_exists. now exists p.
Qed.

(** C3. The result of a classification is the labels that have a pattern
    matching the text, each once, in the order in which the dictionary was
    compiled, with a comma between two of them and nothing else around; it
    is empty when there is none. For [{"a": ["now"], "b": ["today"]}] the
    text "order now, today only" yields "a,b". *)
Theorem labels_are_joined_in_compile_order
        (db : UnicodeDB) (dictionaries : dict pyobj)
        (compiled : dict (list Pattern)) (text : str) :
  ascii_compatible db ->
  NoDup (keys dictionaries) ->
  compile_patterns dictionaries = Ok compiled ->
  exists found : list str,
    classify_text db (Str_ text) compiled = Ok (str_join (py ",") found) /\
    keys compiled = keys dictionaries /\
    subsequence found (keys dictionaries) /\
    NoDup found /\
    (forall label,
        In label found <->
        exists ps p, In (label, ps) compiled /\ In p ps /\ search db p text = true) /\
    (found = [] -> classify_text db (Str_ text) compiled = Ok (py "")) /\
    compile_and_classify db
      [(py "a", vocabulary [py "now"]); (py "b", vocabulary [py "today"])]
      (Str_ (py "order now, today only")) = Ok (py "a,b").
Proof.
  intros Hdb Hnd Hc.
  assert (Hk : keys compiled = keys dictionaries).
  { apply (@compile_items_keys dictionaries [] compiled); assumption. }
  exists (hit_labels db text compiled).
  split; [apply classify_text_str|].
  split; [exact Hk|].
  assert (Hsub : subsequence (hit_labels db text compiled) (keys dictionaries)).
  { rewrite <- Hk. apply hit_labels_subsequence. }
  split; [exact Hsub|].
  split; [exact (@subsequence_NoDup _ _ _ Hsub Hnd)|].
  split; [intros label; apply hit_labels_In|].
  split.
  - intros E. rewrite classify_text_str, E. reflexivity.
  - evaluate_on_ascii Hdb.
Qed.

Lemma labels_are_joined_in_compile_order_witness :
  exists found : list str,
    classify_text ascii_db (Str_ (py "today or now"))
      [(py "a", [word_pattern (py "now")]); (py "b", [word_pattern (py "today")])] =
    Ok (str_join (py ",") found) /\
    keys [(py "a", [word_pattern (py "now")]); (py "b", [word_pattern (py "today")])] =
    keys [(py "a", vocabulary [py "now"]); (py "b", vocabulary [py "today"])] /\
    subsequence found
      (keys [(py "a", vocabulary [py "now"]); (py "b", vocabulary [py "today"])]) /\
    NoDup found /\
    (forall label,
        In label found <->
        exists ps p,
          In (label, ps)
             [(py "a", [word_pattern (py "now")]);
              (py "b", [word_pattern (py "today")])] /\
          In p ps /\ search ascii_db p (py "today or now") = true) /\
    (found = [] ->
     classify_text ascii_db (Str_ (py "today or now"))
       [(py "a", [word_pattern (py "now")]); (py "b", [word_pattern (py "today")])] =
     Ok (py "")) /\
    compile_and_classify ascii_db
      [(py "a", vocabulary [py "now"]); (py "b", vocabulary [py "today"])]
      (Str_ (py "order now, today only")) = Ok (py "a,b").
Proof.
  apply (@labels_are_joined_in_compile_order
           ascii_db
           [(py "a", vocabulary [py "now"]); (py "b", vocabulary [py "today"])]
           [(py "a", [word_pattern (py "now")]); (py "b", [word_pattern (py "today")])]
           (py "today or now")).
  - intros c Hc. split; [reflexivity | intros x Hx; reflexivity].
  - apply NoDup_cons.
    + cbn. intros [H | []]. discriminate H.
    + apply NoDup_cons; [intros [] | apply NoDup_nil].
  - vm_compute. reflexivity.
Defined.

(** ** Dictionaries of keywords, from source to result *)

Local Open Scope list_scope.

Lemma compile_vocab_keywords (terms : list str) :
  compile_vocab (List.map (fun t => Scalar (Str_ t)) terms) [] =
  Ok (List.map keyword_pattern terms).
Proof.
  induction terms as [|t terms IH]; [reflexivity|].
  cbn [List.map]. rewrite compile_vocab_cons, compile_term_str. cbn [bind].
  rewrite IH. reflexivity.
Qed.

Lemma compile_items_keywords d :
  forall acc,
    NoDup (keys acc ++ List.map fst d) ->
    compile_items (str_dictionary d) acc = Ok (acc ++ compiled_keywords d).
Proof.
  induction d as [|[label terms] d IH]; intros acc Hnd.
  - cbn. now rewrite app_nil_r.
  - cbn [str_dictionary List.map fst snd compile_items].
    fold (str_dictionary d). unfold vocabulary at 1. cbn [py_iter bind].
    rewrite compile_vocab_keywords. cbn [bind].
    cbn [List.map fst] in Hnd.
    assert (Hfresh : ~ In label (keys acc)).
    { apply NoDup_remove_2 in Hnd. intros Hin. apply Hnd.
      apply in_or_app. now left. }
    rewrite (@dict_setitem_fresh _ label (List.map keyword_pattern terms) acc Hfresh).
    rewrite IH.
    + cbn [compiled_keywords List.map fst snd]. now rewrite <- app_assoc.
    + unfold keys. rewrite map_app. cbn [List.map fst].
      now rewrite <- app_assoc.
Qed.

Lemma compile_keywords d :
  NoDup (List.map fst d) ->
  compile_patterns (str_dictionary d) = Ok (compiled_keywords d).
Proof. intros Hnd. apply (compile_items_keywords d []). exact Hnd. Qed.

Lemma any_hit_keywords db text terms :
  any_hit db text (List.map keyword_pattern terms) =
  existsb (keyword_hits db text) terms.
Proof.
  unfold any_hit. induction terms as [|t terms IH]; [reflexivity|].
  cbn [List.map existsb]. now rewrite IH.
Qed.

Lemma hit_labels_keywords db text d :
  hit_labels db text (compiled_keywords d) = labels_of db text d.
Proof.
  unfold hit_labels, labels_of, keys.
  induction d as [|[label terms] d IH]; [reflexivity|].
  cbn [compiled_keywords List.map filter fst snd].
  rewrite any_hit_keywords.
  destruct (existsb (keyword_hits db text) terms); cbn [List.map fst];
    now rewrite <- IH.
Qed.

Lemma classify_keywords db d text :
  NoDup (List.map fst d) ->
  compile_and_classify db (str_dictionary d) (Str_ text) =
  Ok (str_join (py ",") (labels_of db text d)).
Proof.
  intros Hnd. unfold compile_and_classify.
  rewrite (@compile_keywords d Hnd). cbn [bind].
  now rewrite classify_text_str, hit_labels_keywords.
Qed.

Lemma keyword_hits_occurs db text term :
  keyword_hits db text term = true <-> keyword_occurs db term text.
Proof.
  unfold keyword_hits, keyword_occurs, keyword_pattern.
  destruct (str_contains (py " ") term);
    [apply search_phrase | apply search_word].
Qed.


Lemma labels_of_In db text d label :
  In label (labels_of db text d) <->
  exists terms term,
    In (label, terms) d /\ In term terms /\ keyword_hits db text term = true.
Proof.
  unfold labels_of. rewrite in_map_iff. split.
  - intros ([l terms] & E & Hin). cbn [fst] in E. subst l.
    apply filter_In in Hin as [Hin Hhit]. cbn [snd] in Hhit.
    apply existsb_exists in Hhit as (term & Hterm & Hhit).
    now exists terms, term.
  - intros (terms & term & Hin & Hterm & Hhit). exists (label, terms).
    split; [reflexivity|]. apply filter_In. split; [exact Hin|].
    cbn [snd]. apply existsb_exists. now exists term.
Qed.

(** X1. A dictionary of distinct labels whose vocabularies are lists of
    [str] always compiles: the result has the same labels in the same
    order and, under each, one pattern per keyword in the order of the
    list, a phrase pattern for a keyword with a space and a word pattern
    for any other. *)
Theorem well_formed_dictionary_compiles (d : list (str * list str)) :
  NoDup (List.map fst d) ->
  compile_patterns (str_dictionary d) =
  Ok (List.map
        (fun item =>
           (fst item,
            List.map (fun term => if str_contains (py " ") term
                                  then phrase_pattern term
                                  else word_pattern term) (snd item)))
        d).
Proof. intros Hnd. exact (@compile_keywords d Hnd). Qed.

Lemma well_formed_dictionary_compiles_witness :
  compile_patterns
    (str_dictionary [(py "u", [py "act now"; py "hurry"]); (py "e", [])]) =
  Ok [(py "u", [phrase_pattern (py "act now"); word_pattern (py "hurry")]);
      (py "e", [])].
Proof.
  apply (@well_formed_dictionary_compiles
           [(py "u", [py "act now"; py "hurry"]); (py "e", [])]).
  apply NoDup_cons.
  - cbn. intros [H | []]. discriminate H.
  - apply NoDup_cons; [intros [] | apply NoDup_nil].
Defined.



(** ** Vocabularies as sets *)

Lemma existsb_incl A (f : A -> bool) (l1 l2 : list A) :
  incl l1 l2 -> existsb f l1 = true -> existsb f l2 = true.
Proof.
  intros Hincl H. apply existsb_exists in H as (x & Hx & Hf).
  apply existsb_exists. exists x. split; [now apply Hincl | exact Hf].
Qed.

Lemma existsb_same_elements A (f : A -> bool) (l1 l2 : list A) :
  (forall x, In x l1 <-> In x l2) -> existsb f l1 = existsb f l2.
Proof.
  intros H.
  destruct (existsb f l1) eqn:E1; destruct (existsb f l2) eqn:E2;
    try reflexivity.
  - rewrite (@existsb_incl A f l1 l2) in E2; [discriminate | | exact E1].
    intros x Hx. now apply H.
  - rewrite (@existsb_incl A f l2 l1) in E1; [discriminate | | exact E2].
    intros x Hx. now apply H.
Qed.

Lemma subsequence_refl A (l : list A) : subsequence l l.
Proof. induction l; constructor; assumption. Qed.

Lemma same_labels_fst (R : list str -> list str -> Prop)
      (d1 d2 : list (str * list str)) :
  Forall2 (fun i1 i2 => fst i1 = fst i2 /\ R (snd i1) (snd i2)) d1 d2 ->
  List.map fst d2 = List.map fst d1.
Proof.
  induction 1 as [|[l1 t1] [l2 t2] d1 d2 [E _] _ IH]; [reflexivity|].
  cbn [List.map fst] in *. now rewrite IH, E.
Qed.

Lemma labels_of_same_elements db text d1 d2 :
  Forall2 (fun i1 i2 =>
             fst i1 = fst i2 /\ forall t, In t (snd i1) <-> In t (snd i2))
          d1 d2 ->
  labels_of db text d1 = labels_of db text d2.
Proof.
  unfold labels_of.
  induction 1 as [|[l1 t1] [l2 t2] d1 d2 [E Hsame] _ IH]; [reflexivity|].
  cbn [fst snd] in E, Hsame. subst l2. cbn [filter snd].
  rewrite (@existsb_same_elements _ (keyword_hits db text) t1 t2 Hsame).
  destruct (existsb (keyword_hits db text) t2); cbn [List.map fst];
    now rewrite IH.
Qed.

Lemma labels_of_more_keywords db text d1 d2 :
  Forall2 (fun i1 i2 => fst i1 = fst i2 /\ incl (snd i1) (snd i2)) d1 d2 ->
  subsequence (labels_of db text d1) (labels_of db text d2).
Proof.
  unfold labels_of.
  induction 1 as [|[l1 t1] [l2 t2] d1 d2 [E Hincl] _ IH]; [constructor|].
  cbn [fst snd] in E, Hincl. subst l2. cbn [filter snd].
  destruct (existsb (keyword_hits db text) t1) eqn:E1.
  - rewrite (@existsb_incl _ (keyword_hits db text) t1 t2 Hincl E1).
    cbn [List.map fst]. constructor. exact IH.
  - destruct (existsb (keyword_hits db text) t2); cbn [List.map fst];
      [constructor|]; exact IH.
Qed.

(** X3. Only the set of keywords under a label counts: two dictionaries
    with the same distinct labels in the same order, whose vocabularies
    hold the same keywords in any order and with any repeats, give every
    text the same result. *)
Theorem keyword_order_and_repeats_do_not_matter
        (db : UnicodeDB) (d1 d2 : list (str * list str)) (text : str) :
  NoDup (List.map fst d1) ->
  Forall2 (fun i1 i2 =>
             fst i1 = fst i2 /\ forall t, In t (snd i1) <-> In t (snd i2))
          d1 d2 ->
  compile_and_classify db (str_dictionary d1) (Str_ text) =
  compile_and_classify db (str_dictionary d2) (Str_ text).
Proof.
  intros Hnd Hsame.
  assert (Hnd2 : NoDup (List.map fst d2)).
  { now rewrite (same_labels_fst (fun t1 t2 => forall t, In t t1 <-> In t t2) Hsame). }
  rewrite (@classify_keywords db d1 text Hnd), (@classify_keywords db d2 text Hnd2).
  now rewrite (@labels_of_same_elements db text d1 d2 Hsame).
Qed.

Lemma keyword_order_and_repeats_do_not_matter_witness :
  compile_and_classify ascii_db
    (str_dictionary [(py "u", [py "act now"; py "hurry"])])
    (Str_ (py "please hurry")) =
  compile_and_classify ascii_db
    (str_dictionary [(py "u", [py "hurry"; py "act now"; py "hurry"])])
    (Str_ (py "please hurry")).
Proof.
  apply (@keyword_order_and_repeats_do_not_matter
           ascii_db
           [(py "u", [py "act now"; py "hurry"])]
           [(py "u", [py "hurry"; py "act now"; py "hurry"])]
           (py "please hurry")).
  - apply NoDup_cons; [intros [] | apply NoDup_nil].
  - apply Forall2_cons; [|apply Forall2_nil].
    split; [reflexivity|]. intros t. cbn. tauto.
Defined.

(** X4. Keywords only add labels: when every vocabulary of a dictionary is
    enlarged, each text keeps the labels it had, in their order, and may
    gain others. *)
Theorem more_keywords_never_lose_a_label
        (db : UnicodeDB) (d1 d2 : list (str * list str)) (text : str) :
  NoDup (List.map fst d1) ->
  Forall2 (fun i1 i2 => fst i1 = fst i2 /\ incl (snd i1) (snd i2)) d1 d2 ->
  exists found1 found2 : list str,
    compile_and_classify db (str_dictionary d1) (Str_ text) =
    Ok (str_join (py ",") found1) /\
    compile_and_classify db (str_dictionary d2) (Str_ text) =
    Ok (str_join (py ",") found2) /\
    subsequence found1 found2.
Proof.
  intros Hnd Hmore.
  assert (Hnd2 : NoDup (List.map fst d2)).
  { now rewrite (same_labels_fst (@incl str) Hmore). }
  exists (labels_of db text d1), (labels_of db text d2).
  split; [exact (@classify_keywords db d1 text Hnd)|].
  split; [exact (@classify_keywords db d2 text Hnd2)|].
  now apply labels_of_more_keywords.
Qed.

Lemma more_keywords_never_lose_a_label_witness :
  exists found1 found2 : list str,
    compile_and_classify ascii_db
      (str_dictionary [(py "u", [py "hurry"]); (py "e", [])])
      (Str_ (py "hurry, vip")) = Ok (str_join (py ",") found1) /\
    compile_and_classify ascii_db
      (str_dictionary [(py "u", [py "act now"; py "hurry"]); (py "e", [py "vip"])])
      (Str_ (py "hurry, vip")) = Ok (str_join (py ",") found2) /\
    subsequence found1 found2.
Proof.
  apply (@more_keywords_never_lose_a_label
           ascii_db
           [(py "u", [py "hurry"]); (py "e", [])]
           [(py "u", [py "act now"; py "hurry"]); (py "e", [py "vip"])]
           (py "hurry, vip")).
  - apply NoDup_cons.
    + cbn. intros [H | []]. discriminate H.
    + apply NoDup_cons; [intros [] | apply NoDup_nil].
  - apply Forall2_cons; [|apply Forall2_cons; [|apply Forall2_nil]].
    + split; [reflexivity|]. intros t [<- | []]. right. now left.
    + split; [reflexivity|]. intros t [].
Defined.

(** ** Nothing to find *)





(** ** Texts without a word character *)

Lemma after_In (l : str) :
  forall o c, after o l = Some c -> o = Some c \/ In c l.
Proof.
  unfold after. induction l as [|x l IH]; intros o c H; cbn [fold_left] in H.
  - now left.
  - right. destruct (IH _ _ H) as [E | Hin].
    + injection E as ->. now left.
    + now right.
Qed.

Lemma is_word_at_before db pre :
  is_word_at db (char_before pre) = true -> existsb (is_word db) pre = true.
Proof.
  unfold char_before. fold (after None pre).
  destruct (after None pre) as [c|] eqn:E; [|discriminate].
  intros Hc. apply after_In in E as [E | Hin]; [discriminate|].
  apply existsb_exists. now exists c.
Qed.

Lemma is_word_at_head db (l : str) :
  is_word_at db (hd_error l) = true -> existsb (is_word db) l = true.
Proof.
  destruct l as [|c l]; [discriminate|]. cbn. intros ->. reflexivity.
Qed.

Lemma search_word_needs_word_char db term text :
  search db (word_pattern term) text = true ->
  existsb (is_word db) text = true.
Proof.
  intros H. apply search_word in H as (pre & window & post & -> & _ & Hb & _).
  rewrite existsb_app. unfold at_boundary in Hb.
  destruct (is_word_at db (char_before pre)) eqn:E1.
  - now rewrite (is_word_at_before db pre E1).
  - cbn [xorb] in Hb. rewrite (is_word_at_head db _ Hb). apply orb_true_r.
Qed.

Lemma labels_of_none db text d :
  Forall (fun item => Forall (fun term => keyword_hits db text term = false)
                             (snd item)) d ->
  labels_of db text d = [].
Proof.
  unfold labels_of. induction 1 as [|[label terms] d Hterms _ IH]; [reflexivity|].
  cbn [filter snd] in *.
  assert (E : existsb (keyword_hits db text) terms = false).
  { induction Hterms as [|t terms Ht _ IHt]; [reflexivity|].
    cbn [existsb]. now rewrite Ht, IHt. }
  now rewrite E.
Qed.

(** X6. A text without any word character (a letter, a digit or the
    underscore), such as a row of punctuation, gets no label from a
    dictionary whose keywords have no space: every such keyword is looked
    for at a word boundary, and the text has none. *)
Theorem text_without_word_character_has_no_label
        (db : UnicodeDB) (d : list (str * list str)) (text : str) :
  NoDup (List.map fst d) ->
  Forall (fun item =>
            Forall (fun term => str_contains (py " ") term = false) (snd item))
         d ->
  existsb (is_word db) text = false ->
  compile_and_classify db (str_dictionary d) (Str_ text) = Ok (py "").
Proof.
  intros Hnd Hwords Htext. rewrite (@classify_keywords db d text Hnd).
  rewrite labels_of_none; [reflexivity|].
  eapply Forall_impl; [|exact Hwords]. intros [label terms] Hterms.
  eapply Forall_impl; [|exact Hterms]. intros term Hterm.
  unfold keyword_hits, keyword_pattern. rewrite Hterm.
  destruct (search db (word_pattern term) text) eqn:E; [|reflexivity].
  apply search_word_needs_word_char in E. congruence.
Qed.

Lemma text_without_word_character_has_no_label_witness :
  compile_and_classify ascii_db
    (str_dictionary [(py "x", [py ""; py "!!"; py "vip"])])
    (Str_ (py "!! ... !!")) = Ok (py "").
Proof.
  apply (@text_without_word_character_has_no_label
           ascii_db [(py "x", [py ""; py "!!"; py "vip"])] (py "!! ... !!")).
  - apply NoDup_cons; [intros [] | apply NoDup_nil].
  - repeat constructor.
  - vm_compute. reflexivity.
Defined.

(** ** A keyword as the whole text *)

Lemma same_ignoring_case_refl db term :
  (forall c, ignorecase_eq db c c = true) -> same_ignoring_case db term term.
Proof.
  intros Hrefl. unfold same_ignoring_case.
  induction term; constructor; [apply Hrefl | assumption].
Qed.

Lemma whole_text_window (pre window post term : str) :
  term = pre ++ window ++ post ->
  List.length term = List.length window ->
  pre = [] /\ post = [] /\ window = term.
Proof.
  intros E Hlen. assert (Hl := f_equal (@List.length codepoint) E).
  rewrite !length_app in Hl.
  destruct pre as [|x pre]; [|cbn [List.length] in Hl; lia].
  destruct post as [|y post]; [|cbn [List.length] in Hl; lia].
  cbn [app] in E. rewrite app_nil_r in E. now subst.
Qed.

Lemma search_word_self db term :
  (forall c, ignorecase_eq db c c = true) ->
  search db (word_pattern term) term =
  is_word_at db (hd_error term) && is_word_at db (char_before term).
Proof.
  intros Hrefl. apply Bool.eq_iff_eq_true. unfold word_pattern.
  rewrite search_word, andb_true_iff. split.
  - intros (pre & window & post & E & Hw & Hb & He).
    apply Forall2_length in Hw.
    destruct (whole_text_window pre window post E Hw) as (-> & -> & ->).
    rewrite app_nil_r in Hb. cbn [app] in He.
    unfold at_boundary in Hb, He. cbn [char_before fold_left is_word_at xorb] in Hb.
    cbn [hd_error is_word_at] in He. rewrite xorb_false_r in He.
    now split.
  - intros [Hb He]. exists [], term, []. rewrite app_nil_r.
    split; [reflexivity|]. split; [now apply same_ignoring_case_refl|].
    unfold at_boundary. cbn [app char_before fold_left is_word_at xorb hd_error].
    fold (char_before term). rewrite xorb_false_r. now split.
Qed.

(** X7. A keyword without a space, given as the whole text, is found
    exactly when its first and its last character are word characters: a
    keyword that begins or ends with another character, such as "c++",
    does not label the text that is the keyword itself. *)
Theorem keyword_labels_itself_iff_it_has_word_ends
        (db : UnicodeDB) (label term : str) :
  (forall c, ignorecase_eq db c c = true) ->
  str_contains (py " ") term = false ->
  compile_and_classify db [(label, vocabulary [term])] (Str_ term) =
  Ok (if is_word_at db (hd_error term) && is_word_at db (char_before term)
      then label else py "").
Proof.
  intros Hrefl Hterm. unfold compile_and_classify.
  rewrite compile_single, Hterm. cbn [bind].
  rewrite classify_single. now rewrite search_word_self.
Qed.

Lemma keyword_labels_itself_iff_it_has_word_ends_witness :
  compile_and_classify ascii_db [(py "x", vocabulary [py "c++"])]
                       (Str_ (py "c++")) = Ok (py "") /\
  compile_and_classify ascii_db [(py "x", vocabulary [py "vip"])]
                       (Str_ (py "vip")) = Ok (py "x").
Proof.
  split.
  - apply (@keyword_labels_itself_iff_it_has_word_ends
             ascii_db (py "x") (py "c++")).
    + intros c. apply N.eqb_refl.
    + vm_compute. reflexivity.
  - apply (@keyword_labels_itself_iff_it_has_word_ends
             ascii_db (py "x") (py "vip")).
    + intros c. apply N.eqb_refl.
    + vm_compute. reflexivity.
Defined.

(** ** Phrases in longer texts *)

Lemma occurs_extend db term text (a b : str) :
  occurs db term text -> occurs db term (a ++ text ++ b).
Proof.
  intros (pre & window & post & -> & Hw).
  exists (a ++ pre), window, (post ++ b). split; [|exact Hw].
  now rewrite <- !app_assoc.
Qed.

Lemma labels_of_more_hits db text1 text2 d :
  Forall (fun item =>
            Forall (fun term => keyword_hits db text1 term = true ->
                                keyword_hits db text2 term = true)
                   (snd item)) d ->
  subsequence (labels_of db text1 d) (labels_of db text2 d).
Proof.
  unfold labels_of. induction 1 as [|[label terms] d Hterms _ IH]; [constructor|].
  cbn [filter snd] in *.
  assert (E : existsb (keyword_hits db text1) terms = true ->
              existsb (keyword_hits db text2) terms = true).
  { induction Hterms as [|t terms Ht _ IHt]; [discriminate|].
    cbn [existsb]. rewrite !orb_true_iff. intros [H | H]; [left | right]; auto. }
  destruct (existsb (keyword_hits db text1) terms).
  - rewrite (E eq_refl). cbn [List.map fst]. constructor. exact IH.
  - destruct (existsb (keyword_hits db text2) terms); cbn [List.map fst];
      [constructor|]; exact IH.
Qed.

(** X8. With a dictionary whose keywords all have a space, a text keeps
    its labels, in their order, when anything is written before and after
    it: a phrase is looked for anywhere in the text. *)
Theorem phrase_labels_survive_in_longer_text
        (db : UnicodeDB) (d : list (str * list str)) (text pre post : str) :
  NoDup (List.map fst d) ->
  Forall (fun item =>
            Forall (fun term => str_contains (py " ") term = true) (snd item))
         d ->
  exists found longer : list str,
    compile_and_classify db (str_dictionary d) (Str_ text) =
    Ok (str_join (py ",") found) /\
    compile_and_classify db (str_dictionary d) (Str_ (pre ++ text ++ post)) =
    Ok (str_join (py ",") longer) /\
    subsequence found longer.
Proof.
  intros Hnd Hphrases.
  exists (labels_of db text d), (labels_of db (pre ++ text ++ post) d).
  split; [exact (@classify_keywords db d text Hnd)|].
  split; [exact (@classify_keywords db d (pre ++ text ++ post) Hnd)|].
  apply labels_of_more_hits.
  eapply Forall_impl; [|exact Hphrases]. intros [label terms] Hterms.
  eapply Forall_impl; [|exact Hterms]. intros term Hterm.
  unfold keyword_hits, keyword_pattern, phrase_pattern. rewrite Hterm.
  rewrite !search_phrase. apply occurs_extend.
Qed.

Lemma phrase_labels_survive_in_longer_text_witness :
  exists found longer : list str,
    compile_and_classify ascii_db
      (str_dictionary [(py "u", [py "act now"])]) (Str_ (py "act now")) =
    Ok (str_join (py ",") found) /\
    compile_and_classify ascii_db
      (str_dictionary [(py "u", [py "act now"])])
      (Str_ (py "re" ++ py "act now" ++ py "here")) =
    Ok (str_join (py ",") longer) /\
    subsequence found longer.
Proof.
  apply (@phrase_labels_survive_in_longer_text
           ascii_db [(py "u", [py "act now"])]
           (py "act now") (py "re") (py "here")).
  - apply NoDup_cons; [intros [] | apply NoDup_nil].
  - repeat constructor.
Defined.

(** ** Reading a result *)

Lemma str_join_cons sep p rest :
  str_join sep (p :: rest) =
  p ++ match rest with
       | [] => []
       | _ :: _ => sep ++ str_join sep rest
       end.
Proof. destruct rest; cbn [str_join]; [now rewrite app_nil_r | reflexivity]. Qed.

Lemma split_at_comma (p1 : str) :
  forall p2 s1 s2 : str,
    existsb (N.eqb 44) p1 = false -> existsb (N.eqb 44) p2 = false ->
    (s1 = [] \/ exists r, s1 = 44%N :: r) ->
    (s2 = [] \/ exists r, s2 = 44%N :: r) ->
    p1 ++ s1 = p2 ++ s2 -> p1 = p2 /\ s1 = s2.
Proof.
  induction p1 as [|c p1 IH]; intros p2 s1 s2 H1 H2 Hs1 Hs2 E.
  - destruct p2 as [|c2 p2]; [now split|]. exfalso.
    cbn [app] in E. destruct Hs1 as [-> | (r & ->)]; [discriminate|].
    injection E as <- _. cbn [existsb] in H2. now rewrite N.eqb_refl in H2.
  - destruct p2 as [|c2 p2].
    + exfalso. cbn [app] in E. destruct Hs2 as [-> | (r & ->)]; [discriminate|].
      injection E as -> _. cbn [existsb] in H1. now rewrite N.eqb_refl in H1.
    + cbn [app] in E. injection E as -> E.
      cbn [existsb] in H1, H2.
      apply orb_false_iff in H1 as [_ H1]. apply orb_false_iff in H2 as [_ H2].
      destruct (IH p2 s1 s2 H1 H2 Hs1 Hs2 E) as [-> ->]. now split.
Qed.

Lemma plain_label_parts label :
  plain_label label = true ->
  existsb (N.eqb 44) label = false /\ label <> [].
Proof.
  unfold plain_label. intros H. apply andb_true_iff in H as [H1 H2].
  split; [now apply negb_true_iff in H1|]. now destruct label.
Qed.

(** Two lists of plain labels with the same comma-join are the same. *)
Lemma str_join_plain_injective (l1 : list str) :
  forall l2,
    Forall (fun label => plain_label label = true) l1 ->
    Forall (fun label => plain_label label = true) l2 ->
    str_join (py ",") l1 = str_join (py ",") l2 -> l1 = l2.
Proof.
  change (py ",") with [44%N].
  induction l1 as [|p1 r1 IH]; intros l2 H1 H2 E.
  - destruct l2 as [|p2 r2]; [reflexivity|]. exfalso.
    inversion H2 as [|? ? Hp2 _]; subst.
    apply plain_label_parts in Hp2 as [_ Hne].
    rewrite str_join_cons in E. cbn [str_join] in E.
    destruct p2; [now apply Hne | discriminate].
  - destruct l2 as [|p2 r2].
    + exfalso. inversion H1 as [|? ? Hp1 _]; subst.
      apply plain_label_parts in Hp1 as [_ Hne].
      rewrite str_join_cons in E. cbn [str_join] in E.
      destruct p1; [now apply Hne | discriminate].
    + inversion H1 as [|? ? Hp1 Hr1]; subst.
      inversion H2 as [|? ? Hp2 Hr2]; subst.
      apply plain_label_parts in Hp1 as [Hc1 _].
      apply plain_label_parts in Hp2 as [Hc2 _].
      rewrite !str_join_cons in E.
      apply split_at_comma in E as [-> E]; try assumption.
      * f_equal. destruct r1 as [|a1 r1], r2 as [|a2 r2];
          try reflexivity; try discriminate.
        injection E as E. now apply IH.
      * destruct r1; [now left | right; eexists; reflexivity].
      * destruct r2; [now left | right; eexists; reflexivity].
Qed.

Lemma labels_of_plain db text d :
  Forall (fun item => plain_label (fst item) = true) d ->
  Forall (fun label => plain_label label = true) (labels_of db text d).
Proof.
  unfold labels_of. induction 1 as [|[label terms] d Hl _ IH]; [constructor|].
  cbn [filter snd]. destruct (existsb (keyword_hits db text) terms);
    cbn [List.map fst]; [constructor|]; assumption.
Qed.

(** X9. A result can be read back: when the labels of the dictionary are
    distinct, not empty and without a comma, two texts with the same result
    string have hits under exactly the same labels. *)
Theorem result_tells_the_labels
        (db : UnicodeDB) (d : list (str * list str)) (text1 text2 : str) :
  NoDup (List.map fst d) ->
  Forall (fun item => plain_label (fst item) = true) d ->
  compile_and_classify db (str_dictionary d) (Str_ text1) =
  compile_and_classify db (str_dictionary d) (Str_ text2) ->
  forall label,
    (exists terms term,
        In (label, terms) d /\ In term terms /\ keyword_occurs db term text1) <->
    (exists terms term,
        In (label, terms) d /\ In term terms /\ keyword_occurs db term text2).
Proof.
  intros Hnd Hplain E label.
  rewrite (@classify_keywords db d text1 Hnd) in E.
  rewrite (@classify_keywords db d text2 Hnd) in E.
  injection E as E.
  apply str_join_plain_injective in E; try (now apply labels_of_plain).
  assert (Hin : In label (labels_of db text1 d) <-> In label (labels_of db text2 d))
    by now rewrite E.
  rewrite !labels_of_In in Hin.
  split; intros (terms & term & H1 & H2 & H3).
  - apply keyword_hits_occurs in H3.
    destruct (proj1 Hin) as (terms' & term' & H1' & H2' & H3').
    { now exists terms, term. }
    exists terms', term'. repeat split; try assumption.
    now apply keyword_hits_occurs.
  - apply keyword_hits_occurs in H3.
    destruct (proj2 Hin) as (terms' & term' & H1' & H2' & H3').
    { now exists terms, term. }
    exists terms', term'. repeat split; try assumption.
    now apply keyword_hits_occurs.
Qed.

Lemma result_tells_the_labels_witness :
  (exists terms term,
      In (py "u", terms) [(py "u", [py "hurry"]); (py "e", [py "vip"])] /\
      In term terms /\ keyword_occurs ascii_db term (py "hurry up")) <->
  (exists terms term,
      In (py "u", terms) [(py "u", [py "hurry"]); (py "e", [py "vip"])] /\
      In term terms /\ keyword_occurs ascii_db term (py "HURRY!")).
Proof.
  apply (@result_tells_the_labels
           ascii_db [(py "u", [py "hurry"]); (py "e", [py "vip"])]
           (py "hurry up") (py "HURRY!")).
  - apply NoDup_cons.
    + cbn. intros [H | []]. discriminate H.
    + apply NoDup_cons; [intros [] | apply NoDup_nil].
  - repeat constructor.
  - vm_compute. reflexivity.
Defined.

(** ** The loop that makes lists of bare strings *)

Lemma str_eqb_refl s : str_eqb s s = true.
Proof. induction s as [|c s IH]; [reflexivity|]. cbn. now rewrite N.eqb_refl. Qed.

Lemma str_eqb_neq s t : s <> t -> str_eqb s t = false.
Proof.
  intros Hne. destruct (str_eqb s t) eqn:E; [|reflexivity].
  exfalso. apply Hne. now apply str_eqb_eq.
Qed.

(** Assigning to a key that is present changes its value where it is. *)
Lemma dict_setitem_at V k (v v0 : V) (l1 l2 : dict V) :
  ~ In k (keys l1) ->
  dict_setitem k v (l1 ++ (k, v0) :: l2) = l1 ++ (k, v) :: l2.
Proof.
  induction l1 as [|[k' v'] l1 IH]; intros Hk; cbn [app dict_setitem].
  - now rewrite str_eqb_refl.
  - rewrite str_eqb_neq.
    + f_equal. apply IH. intros H. apply Hk. now right.
    + intros ->. apply Hk. now left.
Qed.

Lemma keys_normalized (d : dict pyobj) :
  keys (List.map normalized_item d) = keys d.
Proof. unfold keys. rewrite map_map. reflexivity. Qed.

Lemma normalize_items_spec (rest : list (str * pyobj)) :
  forall done,
    NoDup (keys (done ++ rest)) ->
    normalize_items rest (List.map normalized_item done ++ rest) =
    List.map normalized_item (done ++ rest).
Proof.
  induction rest as [|[k v] rest IH]; intros done Hnd.
  - cbn [normalize_items]. now rewrite !app_nil_r.
  - cbn [normalize_items].
    assert (Hfresh : ~ In k (keys (List.map normalized_item done))).
    { rewrite keys_normalized. unfold keys in Hnd |- *. rewrite map_app in Hnd.
      cbn [List.map fst] in Hnd. apply NoDup_remove_2 in Hnd.
      intros Hin. apply Hnd. apply in_or_app. now left. }
    assert (Hnd' : NoDup (keys ((done ++ [(k, v)]) ++ rest))).
    { now rewrite <- app_assoc. }
    specialize (IH (done ++ [(k, v)]) Hnd').
    rewrite <- app_assoc in IH. cbn [app] in IH. rewrite <- IH.
    rewrite map_app, <- app_assoc. cbn [List.map app].
    change (normalized_item (k, v))
      with (k, if is_str v then List_ [v] else v).
    destruct (is_str v); [|reflexivity].
    now rewrite (@dict_setitem_at _ k (List_ [v]) v _ rest Hfresh).
Qed.

Lemma normalize_values_spec (d : dict pyobj) :
  NoDup (keys d) -> normalize_values d = List.map normalized_item d.
Proof. intros Hnd. exact (@normalize_items_spec d [] Hnd). Qed.

Lemma normalized_item_idem item :
  normalized_item (normalized_item item) = normalized_item item.
Proof.
  destruct item as [k v]. unfold normalized_item. cbn [fst snd].
  destruct (is_str v) eqn:E; [reflexivity | now rewrite E].
Qed.

(** X10. The loop over the parsed JSON keeps the labels and their order,
    wraps every value that is a bare string in a one-element list, leaves
    every other value as it is, and changes nothing when run again; after
    it no value is a bare string. *)
Theorem normalized_values_are_never_bare_strings (user_dict : dict pyobj) :
  NoDup (keys user_dict) ->
  normalize_values user_dict =
  List.map (fun item =>
              (fst item,
               if is_str (snd item) then List_ [snd item] else snd item))
           user_dict /\
  keys (normalize_values user_dict) = keys user_dict /\
  Forall (fun item => is_str (snd item) = false) (normalize_values user_dict) /\
  normalize_values (normalize_values user_dict) = normalize_values user_dict.
Proof.
  intros Hnd. rewrite (@normalize_values_spec user_dict Hnd).
  split; [reflexivity|]. split; [apply keys_normalized|]. split.
  - apply Forall_forall. intros item Hin.
    apply in_map_iff in Hin as ([k v] & <- & _).
    unfold normalized_item. cbn [fst snd].
    destruct (is_str v) eqn:E; [reflexivity | exact E].
  - rewrite normalize_values_spec by now rewrite keys_normalized.
    rewrite map_map. apply map_ext. apply normalized_item_idem.
Qed.

Lemma normalized_values_are_never_bare_strings_witness :
  normalize_values
    [(py "u", Scalar (Str_ (py "act now"))); (py "e", vocabulary [py "vip"])] =
  [(py "u", vocabulary [py "act now"]); (py "e", vocabulary [py "vip"])].
Proof.
  apply (@normalized_values_are_never_bare_strings
           [(py "u", Scalar (Str_ (py "act now")));
            (py "e", vocabulary [py "vip"])]).
  apply NoDup_cons.
  - cbn. intros [H | []]. discriminate H.
  - apply NoDup_cons; [intros [] | apply NoDup_nil].
Defined.

Lemma normalize_user_dictionary d :
  NoDup (List.map fst d) ->
  normalize_values (user_dictionary d) = str_dictionary (as_lists d).
Proof.
  intros Hnd. rewrite normalize_values_spec.
  - unfold user_dictionary, str_dictionary, as_lists. rewrite !map_map.
    apply map_ext. intros [label [s | terms]]; reflexivity.
  - unfold keys, user_dictionary. rewrite map_map. exact Hnd.
Qed.

Lemma compile_bare_string label s :
  compile_patterns [(label, Scalar (Str_ s))] =
  compile_patterns (str_dictionary [(label, List.map (fun c => [c]) s)]).
Proof.
  unfold compile_patterns, str_dictionary, vocabulary.
  cbn [List.map fst snd compile_items py_iter]. now rewrite map_map.
Qed.

(** X11. What the sidebar accepts, a dictionary of distinct labels each
    with one string or a list of strings, compiles after the loop to the
    patterns of the same dictionary written with lists only: a bare string
    is one keyword. Handed to [compile_patterns] as it is, a bare string
    would be read as one keyword per character. *)
Theorem bare_string_is_one_keyword (d : list (str * keywords_json)) :
  NoDup (List.map fst d) ->
  normalize_values (user_dictionary d) = str_dictionary (as_lists d) /\
  compile_patterns (normalize_values (user_dictionary d)) =
  Ok (compiled_keywords (as_lists d)) /\
  forall label s,
    compile_patterns [(label, Scalar (Str_ s))] =
    compile_patterns (str_dictionary [(label, List.map (fun c => [c]) s)]).
Proof.
  intros Hnd. split; [now apply normalize_user_dictionary|]. split.
  - rewrite (@normalize_user_dictionary d Hnd). apply compile_keywords.
    unfold as_lists. rewrite map_map. exact Hnd.
  - apply compile_bare_string.
Qed.

Lemma bare_string_is_one_keyword_witness :
  normalize_values
    (user_dictionary [(py "u", One (py "act now")); (py "e", Many [py "vip"])]) =
  str_dictionary (as_lists [(py "u", One (py "act now")); (py "e", Many [py "vip"])]) /\
  compile_patterns
    (normalize_values
       (user_dictionary [(py "u", One (py "act now")); (py "e", Many [py "vip"])])) =
  Ok [(py "u", [phrase_pattern (py "act now")]); (py "e", [word_pattern (py "vip")])] /\
  forall label s,
    compile_patterns [(label, Scalar (Str_ s))] =
    compile_patterns (str_dictionary [(label, List.map (fun c => [c]) s)]).
Proof.
  apply (@bare_string_is_one_keyword
           [(py "u", One (py "act now")); (py "e", Many [py "vip"])]).
  apply NoDup_cons.
  - cbn. intros [H | []]. discriminate H.
  - apply NoDup_cons; [intros [] | apply NoDup_nil].
Defined.

(** ** The starter dictionaries *)

Lemma subsequence_of_two A (x y : A) found :
  subsequence found [x; y] ->
  found = [] \/ found = [x] \/ found = [y] \/ found = [x; y].
Proof.
  intros H.
  inversion H as [|? f1 ? H1|? f1 ? H1]; subst;
    (inversion H1 as [|? f2 ? H2|? f2 ? H2]; subst; inversion H2; subst); auto.
Qed.

(** X12. The starter dictionaries compile without error, and with them
    every text gets one of four results: the empty string,
    "urgency_marketing", "exclusive_marketing", or the two in that order
    with a comma between. *)
Theorem starter_dictionaries_give_four_results (db : UnicodeDB) (text : str) :
  (exists compiled,
      compile_patterns default_dictionaries = Ok compiled /\
      keys compiled = [py "urgency_marketing"; py "exclusive_marketing"]) /\
  (compile_and_classify db default_dictionaries (Str_ text) = Ok (py "") \/
   compile_and_classify db default_dictionaries (Str_ text) =
   Ok (py "urgency_marketing") \/
   compile_and_classify db default_dictionaries (Str_ text) =
   Ok (py "exclusive_marketing") \/
   compile_and_classify db default_dictionaries (Str_ text) =
   Ok (py "urgency_marketing,exclusive_marketing")).
Proof.
  unfold compile_and_classify.
  destruct (compile_patterns default_dictionaries) as [compiled|e] eqn:Hc;
    [|vm_compute in Hc; discriminate Hc].
  assert (Hk : keys compiled = [py "urgency_marketing"; py "exclusive_marketing"]).
  { apply (@compile_items_keys default_dictionaries [] compiled); [|exact Hc].
    apply NoDup_cons.
    - cbn. intros [H | []]. discriminate H.
    - apply NoDup_cons; [intros [] | apply NoDup_nil]. }
  split; [now exists compiled|].
  cbn [bind]. rewrite classify_text_str.
  assert (Hs := hit_labels_subsequence db text compiled). rewrite Hk in Hs.
  apply subsequence_of_two in Hs as [-> | [-> | [-> | ->]]]; auto.
Qed.

(** ** Case, for a whole dictionary *)

Lemma keyword_hits_lower db text term :
  ascii_compatible db ->
  ascii_str term = true -> ascii_str text = true ->
  keyword_hits db (lower_str text) (lower_str term) = keyword_hits db text term.
Proof.
  intros Hdb Hterm Htext. unfold keyword_hits, search.
  rewrite (search_from_ascii Hdb), (search_from_ascii Hdb);
    try reflexivity; try assumption;
    try (apply keyword_pattern_ascii); try (apply lower_str_ascii);
    try assumption.
  apply search_keyword_lower.
Qed.

Lemma labels_of_lower db text d :
  ascii_compatible db ->
  Forall (fun item => Forall (fun term => ascii_str term = true) (snd item)) d ->
  ascii_str text = true ->
  labels_of db (lower_str text) (lower_keywords d) = labels_of db text d.
Proof.
  intros Hdb Hd Htext. unfold labels_of.
  induction Hd as [|[label terms] d Hterms _ IH]; [reflexivity|].
  cbn [lower_keywords List.map fst snd filter] in *.
  assert (E : existsb (keyword_hits db (lower_str text)) (List.map lower_str terms) =
              existsb (keyword_hits db text) terms).
  { induction Hterms as [|t terms Ht _ IHt]; [reflexivity|].
    cbn [List.map existsb]. now rewrite IHt, keyword_hits_lower. }
  rewrite E. destruct (existsb (keyword_hits db text) terms);
    cbn [List.map fst]; now rewrite <- IH.
Qed.

(** X13. Case plays no part for a whole dictionary: with distinct labels
    and ASCII keywords, an ASCII text gets the same result as its lower-case
    form with all keywords in lower case. *)
Theorem dictionary_matching_ignores_case
        (db : UnicodeDB) (d : list (str * list str)) (text : str) :
  ascii_compatible db ->
  NoDup (List.map fst d) ->
  Forall (fun item => Forall (fun term => ascii_str term = true) (snd item)) d ->
  ascii_str text = true ->
  compile_and_classify db (str_dictionary d) (Str_ text) =
  compile_and_classify db (str_dictionary (lower_keywords d))
                       (Str_ (lower_str text)).
Proof.
  intros Hdb Hnd Hd Htext.
  assert (Hnd' : NoDup (List.map fst (lower_keywords d))).
  { unfold lower_keywords. rewrite map_map. exact Hnd. }
  rewrite (@classify_keywords db d text Hnd).
  rewrite (@classify_keywords db (lower_keywords d) (lower_str text) Hnd').
  now rewrite labels_of_lower.
Qed.

Lemma dictionary_matching_ignores_case_witness :
  compile_and_classify ascii_db
    (str_dictionary [(py "u", [py "Act Now"; py "HURRY"]); (py "e", [py "Vip"])])
    (Str_ (py "Hurry, VIP only")) =
  compile_and_classify ascii_db
    (str_dictionary
       (lower_keywords [(py "u", [py "Act Now"; py "HURRY"]); (py "e", [py "Vip"])]))
    (Str_ (lower_str (py "Hurry, VIP only"))).
Proof.
  apply (@dictionary_matching_ignores_case
           ascii_db
           [(py "u", [py "Act Now"; py "HURRY"]); (py "e", [py "Vip"])]
           (py "Hurry, VIP only")).
  - intros c Hc. split; [reflexivity | intros x Hx; reflexivity].
  - apply NoDup_cons.
    + cbn. intros [H | []]. discriminate H.
    + apply NoDup_cons; [intros [] | apply NoDup_nil].
  - repeat constructor.
  - vm_compute. reflexivity.
Defined.

(** ** A text that is one word *)

Lemma after_nonempty (l : str) :
  forall o, l <> [] -> exists c, after o l = Some c /\ In c l.
Proof.
  induction l as [|x l IH]; intros o Hne; [congruence|].
  destruct l as [|y l].
  - exists x. split; [reflexivity | now left].
  - destruct (IH (Some x)) as (c & Hc & Hin); [discriminate|].
    exists c. split; [exact Hc | now right].
Qed.

Lemma is_word_at_before_word db (l : str) :
  forallb (is_word db) l = true -> l <> [] ->
  is_word_at db (char_before l) = true.
Proof.
  intros Hall Hne. unfold char_before. fold (after None l).
  destruct (@after_nonempty l None Hne) as (c & -> & Hin).
  cbn [is_word_at]. rewrite forallb_forall in Hall. now apply Hall.
Qed.

Lemma is_word_at_head_word db (l : str) :
  forallb (is_word db) l = true -> l <> [] ->
  is_word_at db (hd_error l) = true.
Proof.
  destruct l as [|c l]; [congruence|]. cbn. intros H _.
  now apply andb_true_iff in H as [-> _].
Qed.

Lemma occurs_as_word_in_one_word db term text :
  term <> [] -> forallb (is_word db) text = true ->
  occurs_as_word db term text <-> same_ignoring_case db term text.
Proof.
  intros Hterm Hall. split.
  - intros (pre & window & post & -> & Hw & Hb & He).
    rewrite !forallb_app in Hall.
    apply andb_true_iff in Hall as [Hpre Hall].
    apply andb_true_iff in Hall as [Hwin Hpost].
    assert (Hne : window <> []).
    { intros ->. inversion Hw. now subst. }
    assert (Epre : pre = []).
    { destruct pre as [|x pre]; [reflexivity|]. exfalso.
      unfold at_boundary in Hb.
      rewrite (@is_word_at_before_word db (x :: pre) Hpre) in Hb by discriminate.
      rewrite (@is_word_at_head_word db (window ++ post)) in Hb; [discriminate| |].
      - now rewrite forallb_app, Hwin, Hpost.
      - destruct window; [congruence | discriminate]. }
    subst pre. cbn [app] in He |- *.
    assert (Epost : post = []).
    { destruct post as [|y post]; [reflexivity|]. exfalso.
      unfold at_boundary in He.
      rewrite (@is_word_at_before_word db window Hwin Hne) in He.
      rewrite (@is_word_at_head_word db (y :: post) Hpost) in He by discriminate.
      discriminate. }
    subst post. now rewrite app_nil_r.
  - intros Hw. exists [], text, []. rewrite app_nil_r.
    assert (Hne : text <> []).
    { intros ->. inversion Hw. now subst. }
    split; [reflexivity|]. split; [exact Hw|].
    unfold at_boundary. cbn [app char_before fold_left is_word_at xorb hd_error].
    fold (char_before text).
    rewrite (@is_word_at_head_word db text Hall Hne).
    rewrite (@is_word_at_before_word db text Hall Hne). now split.
Qed.

(** X14. No match inside a word: when the text is one unbroken run of
    word characters, a keyword without a space (and not empty) labels it
    exactly when the whole text spells the keyword, up to case. A keyword
    that is only a part of that word is not found. *)
Theorem inside_one_word_only_the_whole_word_matches
        (db : UnicodeDB) (label term text : str) :
  term <> [] ->
  str_contains (py " ") term = false ->
  forallb (is_word db) text = true ->
  exists hit : bool,
    (hit = true <-> same_ignoring_case db term text) /\
    compile_and_classify db [(label, vocabulary [term])] (Str_ text) =
    Ok (if hit then label else py "").
Proof.
  intros Hne Hterm Hall.
  exists (search db (word_pattern term) text). split.
  - unfold word_pattern. rewrite search_word.
    now apply occurs_as_word_in_one_word.
  - unfold compile_and_classify. rewrite compile_single, Hterm. cbn [bind].
    apply classify_single.
Qed.

Lemma inside_one_word_only_the_whole_word_matches_witness :
  exists hit : bool,
    (hit = true <-> same_ignoring_case ascii_db (py "vip") (py "vipers")) /\
    compile_and_classify ascii_db [(py "e", vocabulary [py "vip"])]
                         (Str_ (py "vipers")) =
    Ok (if hit then py "e" else py "").
Proof.
  apply (@inside_one_word_only_the_whole_word_matches
           ascii_db (py "e") (py "vip") (py "vipers")).
  - discriminate.
  - vm_compute. reflexivity.
  - vm_compute. reflexivity.
Defined.
